(** * The menu rotation of [menu.py]

    A shallow embedding of the two functions of [src/menu.py] that carry
    the bot's decision logic, [create_daily_menu] (the rotation engine) and
    [generate_daily_menu_if_needed] (the once-a-day cache), together with
    the module-level variables they read and assign.

    Python integers are unbounded and are modelled by [Z]; [%] with a
    positive right operand is [Z.modulo].  Python strings are compared as
    sequences of code points, which their UTF-8 encoding preserves, so a
    [str] is a [string] holding the bytes of the source literal.  A [dict]
    is a [gmap] with [string] keys, a [list] is a [list], [None] is the
    [None] of [option].  The telegram and scheduler glue ([send_item],
    [broadcast_daily_menu]'s sending loop, [main]) is input/output and is
    not embedded. *)

From stdpp Require Import base decidable option list strings gmap.
From Stdlib Require Import ZArith Lia Sorted.

#[local] Open Scope string_scope.
#[local] Open Scope Z_scope.

(** ** Data *)

(** A menu item: the dictionary documented at [send_item], with its four
    keys.  Only ['name'] is read by the rotation logic. *)
Record Item : Type := mkItem {
  name : string;
  info : string;
  calories : string;
  image : string
}.

#[global] Instance Item_eq_dec : EqDecision Item.
Proof. solve_decision. Defined.

(** [menu_info]: category name to the list of its items. *)
Abbreviation Catalog := (gmap string (list Item)).

(** The value [create_daily_menu] returns: a list of (label, item) tuples. *)
Abbreviation Selection := (list (string * Item)).

(** A [datetime.date], represented by its proleptic Gregorian ordinal
    ([date.toordinal()]); [==] on dates is equality of ordinals and the day
    after [d] is [d + 1]. *)
Abbreviation date := Z (only parsing).

(** The string literals of [create_daily_menu], byte for byte. *)
Definition CHEAT_LABEL : string := "ü•™ –ß–∏—Ç–º–∏–ª".
Definition MEAT_LABEL : string := "üçñ –ú—è—Å–Ω–æ–µ".
Definition SALAD_LABEL : string := "ü•ó –°–∞–ª–∞—Ç".
Definition GARNISH_LABEL : string := "ü•î –ì–∞—Ä–Ω–∏—Ä".
Definition SAUCE_LABEL : string := "üçØ –°–æ—É—Å".
Definition BORSCHT : string := "–ë–æ—Ä—â".
Definition SOUR_CREAM : string := "–°–º–µ—Ç–∞–Ω–∞".
Definition SOUR_CREAM_NOT_FOUND : string := "–°–º–µ—Ç–∞–Ω–∞ –Ω–µ –Ω–∞–π–¥–µ–Ω–∞ –≤ —Å–ø–∏—Å–∫–µ —Å–æ—É—Å–æ–≤!".

(** The exceptions the embedded code can raise: [KeyError] from a dict
    subscript, [IndexError] from [random.choice] on an empty sequence,
    [ValueError] from the explicit [raise]. *)
Inductive exn : Type :=
  | KeyError (key : string)
  | IndexError
  | ValueError (msg : string).

#[global] Instance exn_eq_dec : EqDecision exn.
Proof. solve_decision. Defined.

(** The module-level variables: [menu_data] (loaded once from the JSON
    file), [menu_counter], [daily_menu] and [last_generated_date]. *)
Record Globals : Type := mkGlobals {
  menu_data : Catalog;
  menu_counter : Z;
  daily_menu : option Selection;
  last_generated_date : option date
}.

(** The module as it stands after import, for a given content of
    [list_menu.json]. *)
Definition initial (catalog : Catalog) : Globals :=
  {| menu_data := catalog; menu_counter := 0;
     daily_menu := None; last_generated_date := None |}.

Definition set_menu_counter (c : Z) (g : Globals) : Globals :=
  {| menu_data := menu_data g; menu_counter := c;
     daily_menu := daily_menu g;
     last_generated_date := last_generated_date g |}.

Definition set_daily_menu (s : option Selection) (g : Globals) : Globals :=
  {| menu_data := menu_data g; menu_counter := menu_counter g;
     daily_menu := s;
     last_generated_date := last_generated_date g |}.

Definition set_last_generated_date (d : option date) (g : Globals) : Globals :=
  {| menu_data := menu_data g; menu_counter := menu_counter g;
     daily_menu := daily_menu g;
     last_generated_date := d |}.

(** ** Effects

    A computation starts from the globals and ends either with a value or
    with a raised exception; in both cases the assignments made so far
    stay ([final]).  [engine_calls] is a ghost count of the entries into
    [create_daily_menu] made by the computation: it is not program state,
    it only lets the theorems speak about how often the engine ran. *)
Record Outcome (A : Type) : Type := mkOutcome {
  result : exn + A;
  final : Globals;
  engine_calls : nat
}.
Arguments mkOutcome {A} _ _ _.
Arguments result {A} _.
Arguments final {A} _.
Arguments engine_calls {A} _.

Definition M (A : Type) : Type := Globals -> Outcome A.

#[global] Instance M_ret : MRet M :=
  fun A (a : A) g => mkOutcome (inr a) g 0%nat.

#[global] Instance M_bind : MBind M :=
  fun A B (k : A -> M B) (m : M A) g =>
    match m g with
    | mkOutcome (inl e) g' n => mkOutcome (inl e) g' n
    | mkOutcome (inr a) g' n =>
        match k a g' with
        | mkOutcome r g'' n' => mkOutcome r g'' (n + n')%nat
        end
    end.

Definition raise {A : Type} (e : exn) : M A :=
  fun g => mkOutcome (inl e) g 0%nat.

Definition gets {A : Type} (f : Globals -> A) : M A :=
  fun g => mkOutcome (inr (f g)) g 0%nat.

Definition modify (f : Globals -> Globals) : M unit :=
  fun g => mkOutcome (inr tt) (f g) 0%nat.

(** Ghost step: one entry into the rotation engine. *)
Definition enter_engine : M unit :=
  fun g => mkOutcome (inr tt) g 1%nat.

Definition returned {A : Type} (o : Outcome A) : bool :=
  match result o with inr _ => true | inl _ => false end.

(** [d[key]] on a dictionary. *)
Definition subscript {A : Type} (d : gmap string A) (key : string) : M A :=
  match d !! key with
  | Some v => mret v
  | None => raise (KeyError key)
  end.

(** [random.choice(seq)]: [IndexError] on an empty sequence, otherwise
    [seq[i]] for an index [i] below [len(seq)].  The generator is outside
    the program; its answer is the parameter [r], reduced into range, so
    that every index below [len(seq)] is the answer for some [r]. *)
Definition choice {A : Type} (r : nat) (seq : list A) : M A :=
  match seq with
  | [] => raise IndexError
  | _ :: _ =>
      match seq !! (r mod length seq)%nat with
      | Some x => mret x
      | None => raise IndexError
      end
  end.

(** The answers of the generator to the successive [random.choice] calls
    of one engine run (at most two are used). *)
Abbreviation Draws := (nat -> nat) (only parsing).

(** ** The rotation engine *)

(** [next((s for s in sauces if s["name"] == ...), None)] is the first
    sauce with the sour-cream name, or [None] when no sauce has it.  An
    item found this way has a ['name'] key and is therefore a non-empty
    dict, so the test [not sauce_item] that follows holds for [None]
    only. *)
Definition find_sour_cream (sauces : list Item) : option Item :=
  List.find (fun s => bool_decide (name s = SOUR_CREAM)) sauces.

(** [create_daily_menu(menu_info)].  The counter is incremented first and
    every test reads the incremented value.  In the cheat-meal branch the
    counter is reset after the item has been chosen, so a failing choice
    leaves the incremented value in place. *)
Definition create_daily_menu (rnd : Draws) (menu_info : Catalog) : M Selection :=
  enter_engine ;;
  c ← gets menu_counter ;
  modify (set_menu_counter (c + 1)) ;;
  c ← gets menu_counter ;
  if decide (c `mod` 21 = 0) then
    appetizers ← subscript menu_info "appetizers" ;
    appetizers_item ← choice (rnd 0%nat) appetizers ;
    modify (set_menu_counter 0) ;;
    mret [(CHEAT_LABEL, appetizers_item)]
  else if decide (c `mod` 4 ≠ 0) then
    proteins ← subscript menu_info "proteins" ;
    meat_item ← choice (rnd 0%nat) proteins ;
    fiber ← subscript menu_info "fiber" ;
    salad_item ← choice (rnd 1%nat) fiber ;
    mret [(MEAT_LABEL, meat_item); (SALAD_LABEL, salad_item)]
  else
    carbohydrates ← subscript menu_info "carbohydrates" ;
    garnish_item ← choice (rnd 0%nat) carbohydrates ;
    sauce_item ←
      (if decide (name garnish_item = BORSCHT) then
         sauces ← subscript menu_info "sauces" ;
         match find_sour_cream sauces with
         | Some s => mret s
         | None => raise (ValueError SOUR_CREAM_NOT_FOUND)
         end
       else
         sauces ← subscript menu_info "sauces" ;
         choice (rnd 1%nat) sauces) ;
    mret [(GARNISH_LABEL, garnish_item); (SAUCE_LABEL, sauce_item)].

(** ** The daily cache *)

(** The test [last_generated_date == today and daily_menu is not None]. *)
Definition cached_for (today : date) (g : Globals) : option Selection :=
  match last_generated_date g, daily_menu g with
  | Some d, Some s => if decide (d = today) then Some s else None
  | _, _ => None
  end.

(** [generate_daily_menu_if_needed(menu_info)]; [today] is what
    [date.today()] answers during the call. *)
Definition generate_daily_menu_if_needed
    (today : date) (rnd : Draws) (menu_info : Catalog) : M Selection :=
  hit ← gets (cached_for today) ;
  match hit with
  | Some s => mret s
  | None =>
      s ← create_daily_menu rnd menu_info ;
      modify (set_daily_menu (Some s)) ;;
      modify (set_last_generated_date (Some today)) ;;
      mret s
  end.

(** The first statement of [broadcast_daily_menu]: the cache is asked with
    the module's own [menu_data]. *)
Definition menu_for_today (today : date) (rnd : Draws) : M Selection :=
  data ← gets menu_data ;
  generate_daily_menu_if_needed today rnd data.

(** ** Sequences of calls *)

(** The two functions through which the globals are assigned. *)
Inductive Call : Type :=
  | Engine (rnd : Draws) (menu_info : Catalog)
  | Cache (today : date) (rnd : Draws) (menu_info : Catalog).

Definition perform (call : Call) : M Selection :=
  match call with
  | Engine rnd menu_info => create_daily_menu rnd menu_info
  | Cache today rnd menu_info => generate_daily_menu_if_needed today rnd menu_info
  end.

(** One line of the log of a run: the call, the globals it started from
    and how it ended. *)
Record Entry (I A : Type) : Type := mkEntry {
  input : I;
  before : Globals;
  outcome : Outcome A
}.
Arguments mkEntry {I A} _ _ _.
Arguments input {I A} _.
Arguments before {I A} _.
Arguments outcome {I A} _.

(** Calls made one after the other, each starting from the globals the
    previous one left; a call that raises does not stop the later ones
    (the scheduler fires again the next time). *)
Fixpoint run_calls {I A : Type} (f : I -> M A) (inputs : list I) (g : Globals)
    : list (Entry I A) :=
  match inputs with
  | [] => []
  | i :: inputs' =>
      mkEntry i g (f i g) :: run_calls f inputs' (final (f i g))
  end.

(** The calls of the cache on the dates [calls.*1], all with the same
    catalog. *)
Definition run_days (menu_info : Catalog) (calls : list (date * Draws))
    (g : Globals) : list (Entry (date * Draws) Selection) :=
  run_calls (fun c => generate_daily_menu_if_needed c.1 c.2 menu_info) calls g.

(** How often the engine ran during the calls of the log made on date [d]. *)
Definition engine_calls_on (d : date)
    (log : list (Entry (date * Draws) Selection)) : nat :=
  sum_list_with (fun e => engine_calls (outcome e))
    (filter (fun e => (input e).1 = d) log).

(** The first date of the run is served from what the cache held at the
    start. *)
Definition served_at_start (d : date) (calls : list (date * Draws))
    (g : Globals) : Prop :=
  head calls.*1 = Some d ∧ is_Some (cached_for d g).

#[global] Instance served_at_start_dec d calls g :
  Decision (served_at_start d calls g).
Proof. unfold served_at_start. apply _. Defined.

(** The globals a run ends with. *)
Definition globals_after {I A : Type} (g : Globals) (log : list (Entry I A))
    : Globals :=
  match last log with
  | Some e => final (outcome e)
  | None => g
  end.

(** The categories the branch taken at incremented counter [c'] reads. *)
Definition active_categories (c' : Z) : list string :=
  if decide (c' `mod` 21 = 0) then ["appetizers"]
  else if decide (c' `mod` 4 ≠ 0) then ["proteins"; "fiber"]
  else ["carbohydrates"; "sauces"].

(** The item [random.choice] returns for the generator's answer [r], and
    [None] where it raises. *)
Definition pick {A : Type} (r : nat) (seq : list A) : option A :=
  match seq with
  | [] => None
  | _ :: _ => seq !! (r mod length seq)%nat
  end.

(** ** What the engine is configured for *)

(** The five keys of [list_menu.json] that [create_daily_menu] reads. *)
Definition CATEGORIES : list string :=
  ["appetizers"; "proteins"; "fiber"; "carbohydrates"; "sauces"].

Definition nonempty_category (menu_info : Catalog) (category : string) : bool :=
  match menu_info !! category with
  | Some (_ :: _) => true
  | _ => false
  end.

Definition has_name (n : string) (items : list Item) : bool :=
  existsb (fun i => bool_decide (name i = n)) items.

(** A catalog on which no branch can raise: every category is there and
    non-empty, and Sour Cream is among the sauces when Borscht is among the
    carbohydrates. *)
Definition well_formed (menu_info : Catalog) : bool :=
  forallb (nonempty_category menu_info) CATEGORIES
  && (negb (has_name BORSCHT (default [] (menu_info !! "carbohydrates")))
      || has_name SOUR_CREAM (default [] (menu_info !! "sauces"))).

(** The labels of the selection returned at incremented counter [c']. *)
Definition labels_at (c' : Z) : list string :=
  if decide (c' `mod` 21 = 0) then [CHEAT_LABEL]
  else if decide (c' `mod` 4 ≠ 0) then [MEAT_LABEL; SALAD_LABEL]
  else [GARNISH_LABEL; SAUCE_LABEL].

(** The two cache variables are assigned together: both unset, or a date
    with a selection of one or two pairs. *)
Definition cache_consistent (g : Globals) : Prop :=
  match daily_menu g, last_generated_date g with
  | None, None => True
  | Some s, Some _ => length s = 1%nat ∨ length s = 2%nat
  | _, _ => False
  end.

(** The catalog a call is made with. *)
Definition call_catalog (call : Call) : Catalog :=
  match call with
  | Engine _ menu_info => menu_info
  | Cache _ _ menu_info => menu_info
  end.

(** ** Delivery *)

(** The literal parts of the caption built by [send_item]. *)
Definition LF : string := String (Ascii.ascii_of_nat 10) EmptyString.
Definition INFO_PREFIX : string := "–°–æ—Å—Ç–∞–≤: ".
Definition CALORIES_PREFIX : string := "–ö–∞–ª–æ—Ä–∏–π–Ω–æ—Å—Ç—å: ".

(** The f-string of [send_item].  [calories item] is the text the
    f-string prints for [item['calories']], which the JSON file may give as
    a number or as a string. *)
Definition item_caption (label : string) (item : Item) : string :=
  label +:+ ": " +:+ name item +:+ LF
  +:+ INFO_PREFIX +:+ info item +:+ LF
  +:+ CALORIES_PREFIX +:+ calories item.

(** A string without a line feed. *)
Fixpoint single_line (s : string) : bool :=
  match s with
  | EmptyString => true
  | String c s' => negb (Ascii.eqb c (Ascii.ascii_of_nat 10)) && single_line s'
  end.

(** The arguments of one [bot.send_photo] call; [photo] is the path the
    file handle was opened from. *)
Record SendPhoto : Type := mkSendPhoto {
  chat_id : Z;
  photo : string;
  caption : string
}.

#[global] Instance SendPhoto_eq_dec : EqDecision SendPhoto.
Proof. solve_decision. Defined.

(** What the outside does to one [send_item] call: the photo goes out, or
    [open] raises, or [bot.send_photo] raises. *)
Inductive Fate : Type := Delivered | OpenFailed | SendFailed.

#[global] Instance Fate_eq_dec : EqDecision Fate.
Proof. solve_decision. Defined.

(** The [send_item] calls made so far and the photos that went out. *)
Record Outbox : Type := mkOutbox {
  attempts : nat;
  delivered : list SendPhoto
}.

Definition empty_outbox : Outbox := mkOutbox 0 [].

(** [send_item(bot, chat_id, label, item)]; [fate k] is what happens to
    the [k]-th call.  An exception leaves the function at once. *)
Definition send_item (fate : nat -> Fate) (chat_id : Z) (label : string)
    (item : Item) (box : Outbox) : Fate * Outbox :=
  let caption := item_caption label item in
  match fate (attempts box) with
  | Delivered =>
      (Delivered,
       mkOutbox (S (attempts box))
         (delivered box ++ [mkSendPhoto chat_id (image item) caption]))
  | failure => (failure, mkOutbox (S (attempts box)) (delivered box))
  end.

(** The inner loop of [broadcast_daily_menu]:
    [for label, item in menu_for_today]. *)
Fixpoint send_menu (fate : nat -> Fate) (chat_id : Z) (menu : Selection)
    (box : Outbox) : Fate * Outbox :=
  match menu with
  | [] => (Delivered, box)
  | (label, item) :: menu' =>
      match send_item fate chat_id label item box with
      | (Delivered, box') => send_menu fate chat_id menu' box'
      | failed => failed
      end
  end.

(** The outer loop: [for chat_id in subscribers]. *)
Fixpoint send_to_all (fate : nat -> Fate) (subscribers : list Z)
    (menu : Selection) (box : Outbox) : Fate * Outbox :=
  match subscribers with
  | [] => (Delivered, box)
  | chat_id :: subscribers' =>
      match send_menu fate chat_id menu box with
      | (Delivered, box') => send_to_all fate subscribers' menu box'
      | failed => failed
      end
  end.

(** How a broadcast ends: every photo went out, the menu could not be
    made, or a [send_item] call raised. *)
Inductive Status : Type :=
  | Completed
  | MenuRaised (e : exn)
  | DeliveryRaised (f : Fate).

Record Broadcast : Type := mkBroadcast {
  status : Status;
  globals : Globals;
  outbox : Outbox;
  engine_runs : nat
}.

(** [broadcast_daily_menu(bot)].  The list [subscribers] of the module is
    a parameter: its entries are not part of the source as published. *)
Definition broadcast_daily_menu (subscribers : list Z) (today : date)
    (rnd : Draws) (fate : nat -> Fate) (g : Globals) : Broadcast :=
  let o := menu_for_today today rnd g in
  match result o with
  | inl e => mkBroadcast (MenuRaised e) (final o) empty_outbox (engine_calls o)
  | inr menu =>
      match send_to_all fate subscribers menu empty_outbox with
      | (Delivered, box) => mkBroadcast Completed (final o) box (engine_calls o)
      | (failure, box) =>
          mkBroadcast (DeliveryRaised failure) (final o) box (engine_calls o)
      end
  end.

(** The photos a broadcast of [menu] is to send, subscriber by subscriber
    and, for each, in the order of the selection. *)
Definition photos_for (subscribers : list Z) (menu : Selection) : list SendPhoto :=
  flat_map
    (fun chat_id =>
       map (fun p => mkSendPhoto chat_id (image p.2) (item_caption p.1 p.2)) menu)
    subscribers.

(** The two loops seen as one pass over the photos to send: stop at the
    first call that raises. *)
Fixpoint deliver (fate : nat -> Fate) (requests : list SendPhoto)
    (box : Outbox) : Fate * Outbox :=
  match requests with
  | [] => (Delivered, box)
  | r :: requests' =>
      match fate (attempts box) with
      | Delivered =>
          deliver fate requests'
            (mkOutbox (S (attempts box)) (delivered box ++ [r]))
      | failure => (failure, mkOutbox (S (attempts box)) (delivered box))
      end
  end.

Definition always_delivered : nat -> Fate := fun _ => Delivered.

(** The third [send_item] call of a broadcast fails in [bot.send_photo]. *)
Definition third_fails : nat -> Fate :=
  fun k => if decide (k = 2%nat) then SendFailed else Delivered.

(** ** Examples *)

Definition borscht : Item := mkItem BORSCHT "beet soup" "120" "img/borscht.jpg".
Definition rice : Item := mkItem "rice" "boiled rice" "200" "img/rice.jpg".
Definition sour_cream : Item := mkItem SOUR_CREAM "20% fat" "60" "img/sour.jpg".
Definition garlic_sauce : Item := mkItem "Garlic Sauce" "garlic, oil" "90" "img/garlic.jpg".
Definition toast : Item := mkItem "toast" "bread, cheese" "300" "img/toast.jpg".
Definition chicken : Item := mkItem "chicken" "grilled" "250" "img/chicken.jpg".
Definition beef : Item := mkItem "beef" "stewed" "320" "img/beef.jpg".
Definition coleslaw : Item := mkItem "coleslaw" "cabbage, carrot" "80" "img/slaw.jpg".

Definition sample_catalog : Catalog :=
  <["appetizers" := [toast]]>
  (<["proteins" := [chicken; beef]]>
  (<["fiber" := [coleslaw]]>
  (<["carbohydrates" := [rice; borscht]]>
  (<["sauces" := [garlic_sauce; sour_cream]]> ∅)))).

(** The catalog of the spec's scenario: Borscht, and no Sour Cream. *)
Definition no_sour_cream_catalog : Catalog :=
  <["carbohydrates" := [borscht]]> (<["sauces" := [garlic_sauce]]> ∅).

Definition first_draws : Draws := fun _ => 0%nat.
Definition second_draws : Draws := fun _ => 1%nat.

Definition with_counter (c : Z) (catalog : Catalog) : Globals :=
  set_menu_counter c (initial catalog).

(** The sample catalog with Garlic Sauce as its only sauce. *)
Definition garlic_only_catalog : Catalog :=
  <["sauces" := [garlic_sauce]]> sample_catalog.

(** The sample catalog with an empty appetizers list. *)
Definition no_appetizer_catalog : Catalog := <["appetizers" := []]> sample_catalog.

(** Globals whose cache already holds a selection for date 100. *)
Definition warm_globals : Globals :=
  {| menu_data := sample_catalog; menu_counter := 1;
     daily_menu := Some [(MEAT_LABEL, chicken); (SALAD_LABEL, coleslaw)];
     last_generated_date := Some 100 |}.

(** ** Running the embedding *)

(** Reduce the monad's plumbing and the record projections, and nothing
    else: the tests on the counter stay as they are written. *)
Ltac run :=
  cbv beta iota zeta delta
    [mbind M_bind mret M_ret gets modify raise enter_engine subscript];
  cbn [result final engine_calls returned
       menu_data menu_counter daily_menu last_generated_date
       set_menu_counter set_daily_menu set_last_generated_date
       Nat.add].

Section Choice.
Context {A : Type}.

Lemma choice_empty (r : nat) (g : Globals) :
  choice r (@nil A) g = mkOutcome (inl IndexError) g 0%nat.
Proof. reflexivity. Qed.

Lemma choice_nonempty (r : nat) (seq : list A) :
  seq ≠ [] ->
  ∃ x, x ∈ seq ∧ seq !! (r mod length seq)%nat = Some x ∧
       ∀ g, choice r seq g = mkOutcome (inr x) g 0%nat.
Proof.
  intros Hne. destruct seq as [|a seq]; [done|].
  assert (Hlt : (r mod length (a :: seq) < length (a :: seq))%nat)
    by (apply Nat.mod_upper_bound; discriminate).
  destruct (lookup_lt_is_Some_2 _ _ Hlt) as [x Hx].
  exists x. split; [by eapply list_elem_of_lookup_2|]. split; [done|].
  intros g. unfold choice. by rewrite Hx.
Qed.

Lemma choice_final (r : nat) (seq : list A) (g : Globals) :
  final (choice r seq g) = g ∧ engine_calls (choice r seq g) = 0%nat.
Proof.
  destruct seq as [|a seq]; [done|].
  unfold choice. by destruct (_ !! _).
Qed.
End Choice.

(** ** The three branches of the engine *)

(** C1.  When the incremented counter is a multiple of 21 and the catalog
    has a non-empty ['appetizers'] list, one call of [create_daily_menu]
    returns a single pair, labelled as the cheat meal, whose item is an
    element of ['appetizers'], and leaves the counter at 0. *)
Theorem cheat_meal_on_multiple_of_21
    (c : Z) (rnd : Draws) (menu_info : Catalog) (g : Globals)
    (appetizers : list Item) :
  0 ≤ c ->
  menu_counter g = c ->
  (c + 1) `mod` 21 = 0 ->
  menu_info !! "appetizers" = Some appetizers ->
  appetizers ≠ [] ->
  ∃ item,
    item ∈ appetizers ∧
    result (create_daily_menu rnd menu_info g) = inr [(CHEAT_LABEL, item)] ∧
    menu_counter (final (create_daily_menu rnd menu_info g)) = 0 ∧
    final (create_daily_menu rnd menu_info g) = set_menu_counter 0 g.
Proof.
  intros _ Hc Hmod Happ Hne.
  destruct (choice_nonempty (rnd 0%nat) appetizers Hne) as (item & Hin & _ & Hch).
  exists item. split; [done|].
  unfold create_daily_menu. run. rewrite Hc.
  destruct (decide _) as [_|Hn]; [|done].
  rewrite Happ. cbn. rewrite Hch. cbn. done.
Qed.

Lemma cheat_meal_on_multiple_of_21_witness :
  ∃ item,
    item ∈ [toast] ∧
    result (create_daily_menu first_draws sample_catalog
              (with_counter 20 sample_catalog)) = inr [(CHEAT_LABEL, item)] ∧
    menu_counter (final (create_daily_menu first_draws sample_catalog
                           (with_counter 20 sample_catalog))) = 0 ∧
    final (create_daily_menu first_draws sample_catalog
             (with_counter 20 sample_catalog))
    = set_menu_counter 0 (with_counter 20 sample_catalog).
Proof.
  apply (cheat_meal_on_multiple_of_21 20 first_draws sample_catalog
           (with_counter 20 sample_catalog) [toast]);
    [lia | reflexivity | reflexivity | reflexivity | discriminate].
Defined.

(** C2.  When the incremented counter is a multiple of neither 21 nor 4 and
    the catalog has non-empty ['proteins'] and ['fiber'] lists, one call
    returns exactly two pairs, the first labelled as the meat dish with an
    item of ['proteins'], the second labelled as the salad with an item of
    ['fiber'], and the counter afterwards is [c + 1]. *)
Theorem protein_and_salad_otherwise
    (c : Z) (rnd : Draws) (menu_info : Catalog) (g : Globals)
    (proteins fiber : list Item) :
  0 ≤ c ->
  menu_counter g = c ->
  (c + 1) `mod` 21 ≠ 0 ->
  (c + 1) `mod` 4 ≠ 0 ->
  menu_info !! "proteins" = Some proteins -> proteins ≠ [] ->
  menu_info !! "fiber" = Some fiber -> fiber ≠ [] ->
  ∃ meat_item salad_item,
    meat_item ∈ proteins ∧ salad_item ∈ fiber ∧
    result (create_daily_menu rnd menu_info g)
    = inr [(MEAT_LABEL, meat_item); (SALAD_LABEL, salad_item)] ∧
    menu_counter (final (create_daily_menu rnd menu_info g)) = c + 1 ∧
    final (create_daily_menu rnd menu_info g) = set_menu_counter (c + 1) g.
Proof.
  intros _ Hc H21 H4 Hp Hpne Hf Hfne.
  destruct (choice_nonempty (rnd 0%nat) proteins Hpne) as (meat & Hmin & _ & Hmeat).
  destruct (choice_nonempty (rnd 1%nat) fiber Hfne) as (salad & Hsin & _ & Hsalad).
  exists meat, salad. do 2 (split; [done|]).
  unfold create_daily_menu. run. rewrite Hc.
  destruct (decide _) as [?|_]; [done|].
  destruct (decide _) as [_|?]; [|done].
  rewrite Hp. cbn. rewrite Hmeat. cbn.
  rewrite Hf. cbn. rewrite Hsalad. cbn. done.
Qed.

Lemma protein_and_salad_otherwise_witness :
  ∃ meat_item salad_item,
    meat_item ∈ [chicken; beef] ∧ salad_item ∈ [coleslaw] ∧
    result (create_daily_menu second_draws sample_catalog
              (with_counter 4 sample_catalog))
    = inr [(MEAT_LABEL, meat_item); (SALAD_LABEL, salad_item)] ∧
    menu_counter (final (create_daily_menu second_draws sample_catalog
                           (with_counter 4 sample_catalog))) = 4 + 1 ∧
    final (create_daily_menu second_draws sample_catalog
             (with_counter 4 sample_catalog))
    = set_menu_counter (4 + 1) (with_counter 4 sample_catalog).
Proof.
  apply (protein_and_salad_otherwise 4 second_draws sample_catalog
           (with_counter 4 sample_catalog) [chicken; beef] [coleslaw]);
    [lia | reflexivity | discriminate | discriminate
    | reflexivity | discriminate | reflexivity | discriminate].
Defined.

Lemma find_sour_cream_Some (sauces : list Item) (s : Item) :
  find_sour_cream sauces = Some s -> s ∈ sauces ∧ name s = SOUR_CREAM.
Proof.
  intros H. apply List.find_some in H as [Hin Hn].
  split; [by apply list_elem_of_In | by apply bool_decide_eq_true in Hn].
Qed.

Lemma find_sour_cream_None (sauces : list Item) :
  find_sour_cream sauces = None <-> ∀ s, s ∈ sauces -> name s ≠ SOUR_CREAM.
Proof.
  split.
  - intros H s Hin Hn.
    apply list_elem_of_In in Hin.
    pose proof (List.find_none _ _ H s Hin) as Hb.
    by apply bool_decide_eq_false in Hb.
  - intros H. induction sauces as [|a sauces IH]; [done|].
    unfold find_sour_cream. cbn.
    rewrite bool_decide_eq_false_2; [|apply H; left].
    apply IH. intros s Hs. apply H. by right.
Qed.

(** The garnish branch, once the garnish has been chosen: the sauce is the
    first sour cream for Borscht, and a random sauce otherwise. *)
Lemma garnish_branch
    (rnd : Draws) (menu_info : Catalog) (g : Globals)
    (carbohydrates : list Item) (garnish_item : Item) :
  (menu_counter g + 1) `mod` 21 ≠ 0 ->
  (menu_counter g + 1) `mod` 4 = 0 ->
  menu_info !! "carbohydrates" = Some carbohydrates ->
  carbohydrates !! (rnd 0%nat mod length carbohydrates)%nat = Some garnish_item ->
  create_daily_menu rnd menu_info g =
    let g' := set_menu_counter (menu_counter g + 1) g in
    if decide (name garnish_item = BORSCHT) then
      match menu_info !! "sauces" with
      | None => mkOutcome (inl (KeyError "sauces")) g' 1%nat
      | Some sauces =>
          match find_sour_cream sauces with
          | Some s =>
              mkOutcome (inr [(GARNISH_LABEL, garnish_item); (SAUCE_LABEL, s)]) g' 1%nat
          | None => mkOutcome (inl (ValueError SOUR_CREAM_NOT_FOUND)) g' 1%nat
          end
      end
    else
      match menu_info !! "sauces" with
      | None => mkOutcome (inl (KeyError "sauces")) g' 1%nat
      | Some sauces =>
          match result (choice (rnd 1%nat) sauces g') with
          | inr s =>
              mkOutcome (inr [(GARNISH_LABEL, garnish_item); (SAUCE_LABEL, s)]) g' 1%nat
          | inl e => mkOutcome (inl e) g' 1%nat
          end
      end.
Proof.
  intros H21 H4 Hc Hg.
  assert (Hch : ∀ g0, choice (rnd 0%nat) carbohydrates g0
                      = mkOutcome (inr garnish_item) g0 0%nat).
  { intros g0. unfold choice. destruct carbohydrates; [done|]. by rewrite Hg. }
  unfold create_daily_menu. run.
  destruct (decide _) as [?|_]; [done|].
  destruct (decide _) as [?|_]; [done|].
  rewrite Hc. cbn. rewrite Hch. cbn.
  destruct (decide (name garnish_item = BORSCHT)) as [Hb|Hb]; run.
  - destruct (menu_info !! "sauces") as [sauces|]; cbn; [|done].
    by destruct (find_sour_cream sauces).
  - destruct (menu_info !! "sauces") as [sauces|]; cbn; [|done].
    pose proof (choice_final (rnd 1%nat) sauces
                  (set_menu_counter (menu_counter g + 1) g)) as [Hf Hn].
    destruct (choice _ sauces _) as [[e|s] gf n]; cbn in *; by subst.
Qed.




(** C4.  In the garnish branch, when the item chosen from
    ['carbohydrates'] is named Borscht and no item of ['sauces'] is named
    Sour Cream, the call raises the [ValueError] with its message, returns
    no selection and chooses no random sauce. *)
Theorem borscht_without_sour_cream_raises
    (c : Z) (rnd : Draws) (menu_info : Catalog) (g : Globals)
    (carbohydrates sauces : list Item) (garnish_item : Item) :
  menu_counter g = c ->
  (c + 1) `mod` 21 ≠ 0 ->
  (c + 1) `mod` 4 = 0 ->
  menu_info !! "carbohydrates" = Some carbohydrates ->
  result (choice (rnd 0%nat) carbohydrates g) = inr garnish_item ->
  name garnish_item = BORSCHT ->
  menu_info !! "sauces" = Some sauces ->
  (∀ s, s ∈ sauces -> name s ≠ SOUR_CREAM) ->
  create_daily_menu rnd menu_info g
  = mkOutcome (inl (ValueError SOUR_CREAM_NOT_FOUND))
      (set_menu_counter (c + 1) g) 1%nat.
Proof.
  intros Hc H21 H4 Hcarb Hch Hb Hs Hnone. subst c.
  assert (Hg : carbohydrates !! (rnd 0%nat mod length carbohydrates)%nat
               = Some garnish_item).
  { unfold choice in Hch. destruct carbohydrates as [|a l]; [done|].
    destruct ((a :: l) !! (rnd 0%nat mod length (a :: l))%nat) as [x|];
      cbn in Hch; [by simplify_eq | done]. }
  rewrite (garnish_branch rnd menu_info g carbohydrates garnish_item H21 H4 Hcarb Hg).
  cbn zeta. rewrite decide_True by done. rewrite Hs.
  by rewrite (proj2 (find_sour_cream_None sauces) Hnone).
Qed.

Lemma borscht_without_sour_cream_raises_witness :
  create_daily_menu first_draws no_sour_cream_catalog
    (with_counter 3 no_sour_cream_catalog)
  = mkOutcome (inl (ValueError SOUR_CREAM_NOT_FOUND))
      (set_menu_counter (3 + 1) (with_counter 3 no_sour_cream_catalog)) 1%nat.
Proof.
  apply (borscht_without_sour_cream_raises 3 first_draws no_sour_cream_catalog
           (with_counter 3 no_sour_cream_catalog)
           [borscht] [garlic_sauce] borscht);
    [reflexivity | discriminate | reflexivity | reflexivity | reflexivity
    | reflexivity | reflexivity | ].
  intros s Hs Heq. apply list_elem_of_singleton in Hs. subst s.
  vm_compute in Heq. discriminate Heq.
Defined.

(** ** What one engine run does to the globals *)

Ltac case_engine :=
  repeat match goal with
    | |- context [decide ?P] => destruct (decide P)
    | |- context [@lookup string (list Item) _ _ ?k ?m] =>
        let l := fresh "l" in destruct (@lookup string (list Item) _ _ k m) as [l|]; cbn
    | |- context [choice ?r ?l ?g] =>
        let H := fresh "H" in
        let Hn := fresh "Hn" in
        pose proof (choice_final r l g) as [H Hn];
        destruct (choice r l g) as [[?|?] ? ?]; cbn in H, Hn; subst; cbn
    | |- context [find_sour_cream ?l] => destruct (find_sour_cream l); cbn
    end.

(** Every run enters the engine once, touches no global but the counter,
    and leaves the counter either incremented or, on a returning run whose
    incremented counter is a multiple of 21, at 0. *)
Lemma engine_outcome (rnd : Draws) (menu_info : Catalog) (g : Globals) :
  let o := create_daily_menu rnd menu_info g in
  engine_calls o = 1%nat ∧
  ((final o = set_menu_counter (menu_counter g + 1) g ∧
    ((menu_counter g + 1) `mod` 21 ≠ 0 ∨ returned o = false))
   ∨
   (final o = set_menu_counter 0 g ∧
    (menu_counter g + 1) `mod` 21 = 0 ∧ returned o = true)).
Proof.
  unfold create_daily_menu, returned. run. case_engine; split; auto.
Qed.

(** C9.  Whatever the counter, when a category read by the branch taken at
    the incremented counter is an empty list, the call raises an exception
    and returns no selection. *)
Theorem empty_category_raises
    (rnd : Draws) (menu_info : Catalog) (g : Globals) (category : string) :
  category ∈ active_categories (menu_counter g + 1) ->
  menu_info !! category = Some [] ->
  ∃ e, result (create_daily_menu rnd menu_info g) = inl e.
Proof.
  unfold active_categories. intros Hin Hempty.
  unfold create_daily_menu. run.
  destruct (decide ((menu_counter g + 1) `mod` 21 = 0)) as [H21|H21].
  { apply list_elem_of_singleton in Hin. subst category.
    rewrite Hempty. cbn. eauto. }
  destruct (decide ((menu_counter g + 1) `mod` 4 ≠ 0)) as [H4|H4].
  { apply elem_of_cons in Hin as [->|Hin].
    - rewrite Hempty. cbn. eauto.
    - apply list_elem_of_singleton in Hin. subst category.
      rewrite Hempty. case_engine; eauto. }
  apply elem_of_cons in Hin as [->|Hin].
  - rewrite Hempty. cbn. eauto.
  - apply list_elem_of_singleton in Hin. subst category.
    destruct (menu_info !! "carbohydrates") as [carbs|]; cbn; [|eauto].
    pose proof (choice_final (rnd 0%nat) carbs
                  (set_menu_counter (menu_counter g + 1) g)) as [Hf Hn].
    destruct (choice (rnd 0%nat) carbs _) as [[e|garnish] gf n];
      cbn in *; [eauto|]. subst.
    destruct (decide (name garnish = BORSCHT)); run; rewrite Hempty; cbn; eauto.
Qed.

Lemma empty_category_raises_witness :
  ∃ e, result (create_daily_menu first_draws no_appetizer_catalog
                 (with_counter 20 sample_catalog)) = inl e.
Proof.
  apply (empty_category_raises first_draws no_appetizer_catalog
           (with_counter 20 sample_catalog) "appetizers");
    [vm_compute; left | reflexivity].
Defined.

(** C10.  A call of [create_daily_menu], returning or raising, assigns no
    global but [menu_counter]: the catalog held in [menu_data] (the one
    [broadcast_daily_menu] passes in), [daily_menu] and
    [last_generated_date] are what they were. *)
Theorem engine_assigns_only_the_counter
    (rnd : Draws) (menu_info : Catalog) (g : Globals) :
  final (create_daily_menu rnd menu_info g)
  = set_menu_counter (menu_counter (final (create_daily_menu rnd menu_info g))) g
  ∧ menu_data (final (create_daily_menu rnd menu_info g)) = menu_data g
  ∧ daily_menu (final (create_daily_menu rnd menu_info g)) = daily_menu g
  ∧ last_generated_date (final (create_daily_menu rnd menu_info g))
    = last_generated_date g.
Proof.
  destruct (engine_outcome rnd menu_info g) as [_ [[-> _]|[-> _]]];
    repeat split; cbn; congruence.
Qed.

(** ** The cache in front of the engine *)

(** [broadcast_daily_menu] asks the cache with the catalog the module
    holds, and the call leaves that catalog in place. *)
Lemma menu_for_today_eq (today : date) (rnd : Draws) (g : Globals) :
  menu_for_today today rnd g
  = generate_daily_menu_if_needed today rnd (menu_data g) g.
Proof.
  unfold menu_for_today. run.
  by destruct (generate_daily_menu_if_needed today rnd (menu_data g) g) as [r g' n].
Qed.

(** From here on the engine is used through [engine_outcome] and the
    branch theorems only. *)
#[local] Arguments create_daily_menu : simpl never.

Lemma generate_hit
    (today : date) (rnd : Draws) (menu_info : Catalog) (g : Globals)
    (s : Selection) :
  cached_for today g = Some s ->
  generate_daily_menu_if_needed today rnd menu_info g = mkOutcome (inr s) g 0%nat.
Proof.
  intros H. unfold generate_daily_menu_if_needed. run. by rewrite H.
Qed.

Lemma generate_miss
    (today : date) (rnd : Draws) (menu_info : Catalog) (g : Globals) :
  cached_for today g = None ->
  generate_daily_menu_if_needed today rnd menu_info g =
    match result (create_daily_menu rnd menu_info g) with
    | inl e => mkOutcome (inl e) (final (create_daily_menu rnd menu_info g)) 1%nat
    | inr s =>
        mkOutcome (inr s)
          (set_last_generated_date (Some today)
             (set_daily_menu (Some s) (final (create_daily_menu rnd menu_info g))))
          1%nat
    end.
Proof.
  intros H. unfold generate_daily_menu_if_needed.
  unfold mbind at 1. unfold M_bind at 1. unfold gets at 1. cbn. rewrite H.
  destruct (engine_outcome rnd menu_info g) as [Hn _].
  unfold mbind, M_bind, mret, M_ret, modify.
  destruct (create_daily_menu rnd menu_info g) as [[e|s] gf n];
    cbn in Hn |- *; subst; reflexivity.
Qed.

(** The cache test does not read the counter. *)
Lemma cached_for_set_menu_counter (today : date) (c : Z) (g : Globals) :
  cached_for today (set_menu_counter c g) = cached_for today g.
Proof. reflexivity. Qed.

(** After a returning miss the cache answers for [today] and for no other
    date. *)
Lemma cached_for_after_store (today d : date) (s : Selection) (g : Globals) :
  cached_for d (set_last_generated_date (Some today) (set_daily_menu (Some s) g))
  = if decide (today = d) then Some s else None.
Proof. reflexivity. Qed.


(** C8.  When [create_daily_menu] raises the [ValueError] of the pairing
    rule, the counter is already incremented by 1 and [daily_menu] and
    [last_generated_date] are unchanged, so the cache answers for [today]
    exactly as before.  When the failing run was made on behalf of
    [generate_daily_menu_if_needed] on [today] (the cache had nothing for
    [today]), that call raises the same error, and the next call on the
    same date runs the engine again. *)
Theorem pairing_error_keeps_increment_and_misses_cache
    (today : date) (rnd rnd' : Draws) (menu_info : Catalog) (g : Globals)
    (msg : string) :
  result (create_daily_menu rnd menu_info g) = inl (ValueError msg) ->
  menu_counter (final (create_daily_menu rnd menu_info g)) = menu_counter g + 1
  ∧ daily_menu (final (create_daily_menu rnd menu_info g)) = daily_menu g
  ∧ last_generated_date (final (create_daily_menu rnd menu_info g))
    = last_generated_date g
  ∧ cached_for today (final (create_daily_menu rnd menu_info g))
    = cached_for today g
  ∧ match cached_for today g with
    | None =>
        generate_daily_menu_if_needed today rnd menu_info g
        = mkOutcome (inl (ValueError msg))
            (final (create_daily_menu rnd menu_info g)) 1%nat
        ∧ engine_calls
            (generate_daily_menu_if_needed today rnd' menu_info
               (final (create_daily_menu rnd menu_info g))) = 1%nat
    | Some s =>
        generate_daily_menu_if_needed today rnd menu_info g
        = mkOutcome (inr s) g 0%nat
    end.
Proof.
  intros Hraise.
  destruct (engine_outcome rnd menu_info g) as [_ [[Hf _]|[_ [_ Hret]]]];
    [|unfold returned in Hret; by rewrite Hraise in Hret].
  rewrite Hf. cbn. do 4 (split; [done|]).
  destruct (cached_for today g) as [s|] eqn:Hc.
  - by apply generate_hit.
  - split.
    + rewrite generate_miss by done. by rewrite Hraise, Hf.
    + rewrite generate_miss by done.
      by destruct (result (create_daily_menu rnd' menu_info _)).
Qed.

Lemma pairing_error_keeps_increment_and_misses_cache_witness :
  menu_counter (final (create_daily_menu first_draws no_sour_cream_catalog
                         (with_counter 3 no_sour_cream_catalog))) = 3 + 1
  ∧ engine_calls
      (generate_daily_menu_if_needed 100 second_draws no_sour_cream_catalog
         (final (create_daily_menu first_draws no_sour_cream_catalog
                   (with_counter 3 no_sour_cream_catalog)))) = 1%nat.
Proof.
  pose proof (pairing_error_keeps_increment_and_misses_cache
                100 first_draws second_draws no_sour_cream_catalog
                (with_counter 3 no_sour_cream_catalog) SOUR_CREAM_NOT_FOUND
                ltac:(vm_compute; reflexivity)) as (Hc & _ & _ & _ & Hm).
  split; [exact Hc|].
  change (cached_for 100 (with_counter 3 no_sour_cream_catalog)) with (@None Selection) in Hm.
  exact (proj2 Hm).
Defined.

(** A call of the cache changes the counter only through the engine run
    it makes, if it makes one. *)
Lemma generate_counter
    (today : date) (rnd : Draws) (menu_info : Catalog) (g : Globals) :
  match cached_for today g with
  | Some s =>
      generate_daily_menu_if_needed today rnd menu_info g = mkOutcome (inr s) g 0%nat
  | None =>
      engine_calls (generate_daily_menu_if_needed today rnd menu_info g) = 1%nat ∧
      result (generate_daily_menu_if_needed today rnd menu_info g)
      = result (create_daily_menu rnd menu_info g) ∧
      menu_counter (final (generate_daily_menu_if_needed today rnd menu_info g))
      = menu_counter (final (create_daily_menu rnd menu_info g))
  end.
Proof.
  destruct (cached_for today g) as [s|] eqn:Hc.
  - by apply generate_hit.
  - rewrite generate_miss by done.
    by destruct (result (create_daily_menu rnd menu_info g)).
Qed.

(** After a returning call on [today] the cache answers for [today], with
    the selection just returned, and for no other date. *)
Lemma generate_returned_caches
    (today d : date) (rnd : Draws) (menu_info : Catalog) (g : Globals)
    (s : Selection) :
  result (generate_daily_menu_if_needed today rnd menu_info g) = inr s ->
  cached_for d (final (generate_daily_menu_if_needed today rnd menu_info g))
  = if decide (today = d) then Some s else None.
Proof.
  destruct (cached_for today g) as [s0|] eqn:Hc.
  - rewrite (generate_hit _ _ _ _ _ Hc). cbn [result final]. intros [= ->].
    unfold cached_for in *.
    destruct (last_generated_date g) as [d0|]; [|done].
    destruct (daily_menu g) as [s1|]; [|done].
    destruct (decide (d0 = today)) as [->|]; [|done].
    by simplify_eq.
  - rewrite generate_miss by done.
    destruct (result (create_daily_menu rnd menu_info g)) as [e|s1];
      cbn [result final]; [done|].
    intros [= ->]. apply cached_for_after_store.
Qed.

(** C6, as the code has it.  Starting from globals whose cache holds
    nothing for date [D], a call on [D] and a call on [D + 1] that both
    return run the engine exactly twice, and the counter afterwards is
    [c + 2] unless the reset intervenes: it is 1 when [c + 1] is a multiple
    of 21 and 0 when [c + 2] is. *)
Theorem day_rollover_runs_engine_twice
    (D : date) (rnd1 rnd2 : Draws) (menu_info : Catalog) (g : Globals) :
  cached_for D g = None ->
  returned (generate_daily_menu_if_needed D rnd1 menu_info g) = true ->
  returned (generate_daily_menu_if_needed (D + 1) rnd2 menu_info
              (final (generate_daily_menu_if_needed D rnd1 menu_info g))) = true ->
  (engine_calls (generate_daily_menu_if_needed D rnd1 menu_info g)
   + engine_calls
       (generate_daily_menu_if_needed (D + 1) rnd2 menu_info
          (final (generate_daily_menu_if_needed D rnd1 menu_info g))))%nat = 2%nat
  ∧ menu_counter
      (final (generate_daily_menu_if_needed (D + 1) rnd2 menu_info
                (final (generate_daily_menu_if_needed D rnd1 menu_info g))))
    = (if decide ((menu_counter g + 1) `mod` 21 = 0) then 1
       else if decide ((menu_counter g + 2) `mod` 21 = 0) then 0
       else menu_counter g + 2).
Proof.
  intros Hmiss Hr1 Hr2.
  set (o1 := generate_daily_menu_if_needed D rnd1 menu_info g) in *.
  assert (Hmiss2 : cached_for (D + 1) (final o1) = None).
  { unfold returned in Hr1. destruct (result o1) as [e|s1] eqn:Hres; [done|].
    unfold o1. rewrite (generate_returned_caches D (D + 1) _ _ _ _ Hres).
    apply decide_False. lia. }
  pose proof (generate_counter D rnd1 menu_info g) as H1.
  rewrite Hmiss in H1. fold o1 in H1. destruct H1 as (Hn1 & Hres1 & Hc1).
  pose proof (generate_counter (D + 1) rnd2 menu_info (final o1)) as H2.
  rewrite Hmiss2 in H2. destruct H2 as (Hn2 & Hres2 & Hc2).
  split; [by rewrite Hn1, Hn2|].
  rewrite Hc2.
  unfold returned in Hr1, Hr2. rewrite Hres1 in Hr1. rewrite Hres2 in Hr2.
  destruct (engine_outcome rnd1 menu_info g) as [_ Ho1].
  destruct (engine_outcome rnd2 menu_info (final o1)) as [_ Ho2].
  unfold returned in Ho1, Ho2.
  destruct (result (create_daily_menu rnd1 menu_info g)); [done|].
  destruct (result (create_daily_menu rnd2 menu_info (final o1))); [done|].
  rewrite Hc1 in Ho2.
  destruct Ho1 as [[Hf1 [H21|?]]|[Hf1 [H21 _]]]; [|done|];
    rewrite Hf1 in Ho2; cbn [menu_counter set_menu_counter] in Ho2;
    destruct Ho2 as [[Hf2 [H21'|?]]|[Hf2 [H21' _]]]; try done;
    rewrite Hf2; cbn [menu_counter set_menu_counter];
    try replace (menu_counter g + 1 + 1) with (menu_counter g + 2) in * by lia;
    try change ((0 + 1) `mod` 21) with 1 in *;
    repeat case_decide; lia.
Qed.

Lemma day_rollover_runs_engine_twice_witness :
  (engine_calls (generate_daily_menu_if_needed 100 first_draws sample_catalog
                   (with_counter 5 sample_catalog))
   + engine_calls
       (generate_daily_menu_if_needed (100 + 1) second_draws sample_catalog
          (final (generate_daily_menu_if_needed 100 first_draws sample_catalog
                    (with_counter 5 sample_catalog)))))%nat = 2%nat
  ∧ menu_counter
      (final (generate_daily_menu_if_needed (100 + 1) second_draws sample_catalog
                (final (generate_daily_menu_if_needed 100 first_draws sample_catalog
                          (with_counter 5 sample_catalog)))))
    = 5 + 2.
Proof.
  exact (day_rollover_runs_engine_twice 100 first_draws second_draws
           sample_catalog (with_counter 5 sample_catalog)
           ltac:(reflexivity) ltac:(vm_compute; reflexivity)
           ltac:(vm_compute; reflexivity)).
Defined.

(** C6 as stated fails at the reset: from counter 20 and an empty cache the
    two calls return and run the engine twice, and the counter ends at 1,
    not at 22. *)
Lemma day_rollover_across_reset :
  returned (generate_daily_menu_if_needed 100 first_draws sample_catalog
              (with_counter 20 sample_catalog)) = true
  ∧ returned
      (generate_daily_menu_if_needed (100 + 1) first_draws sample_catalog
         (final (generate_daily_menu_if_needed 100 first_draws sample_catalog
                   (with_counter 20 sample_catalog)))) = true
  ∧ (engine_calls (generate_daily_menu_if_needed 100 first_draws sample_catalog
                     (with_counter 20 sample_catalog))
     + engine_calls
         (generate_daily_menu_if_needed (100 + 1) first_draws sample_catalog
            (final (generate_daily_menu_if_needed 100 first_draws sample_catalog
                      (with_counter 20 sample_catalog)))))%nat = 2%nat
  ∧ menu_counter
      (final (generate_daily_menu_if_needed (100 + 1) first_draws sample_catalog
                (final (generate_daily_menu_if_needed 100 first_draws sample_catalog
                          (with_counter 20 sample_catalog))))) = 1
  ∧ menu_counter
      (final (generate_daily_menu_if_needed (100 + 1) first_draws sample_catalog
                (final (generate_daily_menu_if_needed 100 first_draws sample_catalog
                          (with_counter 20 sample_catalog)))))
    ≠ menu_counter (with_counter 20 sample_catalog) + 2.
Proof.
  repeat split; try (vm_compute; reflexivity).
  vm_compute. discriminate.
Qed.

(** ** The counter along a run *)

(** What one call, of the engine or of the cache, does to the counter. *)
Lemma perform_counter (call : Call) (g : Globals) :
  let c := menu_counter g in
  let c' := menu_counter (final (perform call g)) in
  (engine_calls (perform call g) = 0%nat ∧ c' = c)
  ∨ (engine_calls (perform call g) = 1%nat ∧ c' = c + 1 ∧
     ((c + 1) `mod` 21 ≠ 0 ∨ returned (perform call g) = false))
  ∨ (engine_calls (perform call g) = 1%nat ∧ c' = 0 ∧
     (c + 1) `mod` 21 = 0 ∧ returned (perform call g) = true).
Proof.
  cbv zeta.
  assert (He : ∀ rnd menu_info o,
             engine_calls o = 1%nat ->
             result o = result (create_daily_menu rnd menu_info g) ->
             menu_counter (final o)
             = menu_counter (final (create_daily_menu rnd menu_info g)) ->
             (engine_calls o = 0%nat ∧ menu_counter (final o) = menu_counter g)
             ∨ (engine_calls o = 1%nat ∧ menu_counter (final o) = menu_counter g + 1 ∧
                ((menu_counter g + 1) `mod` 21 ≠ 0 ∨ returned o = false))
             ∨ (engine_calls o = 1%nat ∧ menu_counter (final o) = 0 ∧
                (menu_counter g + 1) `mod` 21 = 0 ∧ returned o = true)).
  { intros rnd menu_info o Hn Hres Hc. right.
    unfold returned. rewrite Hres, Hc.
    destruct (engine_outcome rnd menu_info g) as [_ [[Hf Hw]|[Hf Hw]]];
      rewrite Hf; cbn [menu_counter set_menu_counter]; [left|right]; done. }
  destruct call as [rnd menu_info|today rnd menu_info]; cbn [perform].
  - apply He with rnd menu_info; [|done|done].
    by destruct (engine_outcome rnd menu_info g).
  - pose proof (generate_counter today rnd menu_info g) as H.
    destruct (cached_for today g) as [s|].
    + left. by rewrite H.
    + destruct H as (Hn & Hres & Hc). by apply He with rnd menu_info.
Qed.

(** C7, as the code has it.  Along every sequence of calls started at a
    non-negative counter, the counter stays non-negative and no call lowers
    it, except a returning engine run whose incremented counter is a
    multiple of 21, which leaves it at 0.  Every engine run whose
    incremented counter is not a multiple of 21 adds exactly 1, every
    returning engine run whose incremented counter is a multiple of 21
    resets to 0, an engine run that raises at a multiple of 21 leaves the
    incremented value, and a call served from the cache leaves the counter
    alone. *)
Theorem counter_only_drops_at_reset (calls : list Call) (g : Globals) :
  0 ≤ menu_counter g ->
  Forall (fun e =>
            let c := menu_counter (before e) in
            let c' := menu_counter (final (outcome e)) in
            0 ≤ c ∧ 0 ≤ c' ∧
            (c ≤ c' ∨
             (c' = 0 ∧ (c + 1) `mod` 21 = 0 ∧
              engine_calls (outcome e) = 1%nat ∧ returned (outcome e) = true)) ∧
            (if decide ((c + 1) `mod` 21 = 0)
             then engine_calls (outcome e) = 0%nat ∧ c' = c
                  ∨ engine_calls (outcome e) = 1%nat ∧
                    (if returned (outcome e) then c' = 0 else c' = c + 1)
             else engine_calls (outcome e) = 0%nat ∧ c' = c
                  ∨ engine_calls (outcome e) = 1%nat ∧ c' = c + 1))
         (run_calls perform calls g).
Proof.
  revert g. induction calls as [|call calls IH]; intros g Hc; cbn [run_calls].
  { constructor. }
  pose proof (perform_counter call g) as Hp. cbv zeta in Hp.
  assert (Hc' : 0 ≤ menu_counter (final (perform call g))) by
    (destruct Hp as [[_ ->]|[(_ & -> & _)|(_ & -> & _)]]; lia).
  constructor; [|by apply IH].
  cbn [before outcome]. cbv zeta.
  split; [done|]. split; [done|]. split.
  - destruct Hp as [[_ ->]|[(_ & -> & _)|(? & -> & ? & ?)]];
      [left; lia | left; lia | right; done].
  - case_decide.
    + destruct Hp as [[? ?]|[(? & ? & [?|Hr])|(? & ? & ? & Hr)]];
        [by left | done | right; by rewrite Hr | right; by rewrite Hr].
    + destruct Hp as [[? ?]|[(? & ? & ?)|(? & ? & ? & ?)]];
        [by left | by right | done].
Qed.

Lemma counter_only_drops_at_reset_witness :
  Forall (fun e =>
            let c := menu_counter (before e) in
            let c' := menu_counter (final (outcome e)) in
            0 ≤ c ∧ 0 ≤ c' ∧
            (c ≤ c' ∨
             (c' = 0 ∧ (c + 1) `mod` 21 = 0 ∧
              engine_calls (outcome e) = 1%nat ∧ returned (outcome e) = true)) ∧
            (if decide ((c + 1) `mod` 21 = 0)
             then engine_calls (outcome e) = 0%nat ∧ c' = c
                  ∨ engine_calls (outcome e) = 1%nat ∧
                    (if returned (outcome e) then c' = 0 else c' = c + 1)
             else engine_calls (outcome e) = 0%nat ∧ c' = c
                  ∨ engine_calls (outcome e) = 1%nat ∧ c' = c + 1))
         (run_calls perform
            [Engine first_draws sample_catalog; Cache 100 first_draws sample_catalog;
             Engine second_draws sample_catalog]
            (with_counter 19 sample_catalog)).
Proof.
  apply (counter_only_drops_at_reset
           [Engine first_draws sample_catalog; Cache 100 first_draws sample_catalog;
            Engine second_draws sample_catalog]
           (with_counter 19 sample_catalog)).
  vm_compute. discriminate.
Defined.

(** C7 as stated fails where the cheat-meal branch raises: from counter 20
    with an empty appetizers list the incremented counter is 21, the call
    raises [IndexError] before the reset, and the counter stays at 21. *)
Lemma failed_cheat_meal_is_not_reset :
  (20 + 1) `mod` 21 = 0
  ∧ no_appetizer_catalog !! "appetizers" = Some []
  ∧ result (create_daily_menu first_draws no_appetizer_catalog
              (with_counter 20 no_appetizer_catalog)) = inl IndexError
  ∧ menu_counter (final (create_daily_menu first_draws no_appetizer_catalog
                           (with_counter 20 no_appetizer_catalog))) = 21
  ∧ menu_counter (final (create_daily_menu first_draws no_appetizer_catalog
                           (with_counter 20 no_appetizer_catalog))) ≠ 0.
Proof.
  repeat split; try (vm_compute; reflexivity). vm_compute. discriminate.
Qed.

(** ** One engine run per date *)

Lemma cached_for_other (d0 d : date) (g : Globals) (s : Selection) :
  cached_for d0 g = Some s -> d ≠ d0 -> cached_for d g = None.
Proof.
  unfold cached_for.
  destruct (last_generated_date g) as [d1|]; [|done].
  destruct (daily_menu g) as [s1|]; [|done].
  intros H Hne. case_decide; [subst d1|done]. by rewrite decide_False.
Qed.

Lemma engine_calls_on_cons (d : date)
    (e : Entry (date * Draws) Selection)
    (log : list (Entry (date * Draws) Selection)) :
  engine_calls_on d (e :: log)
  = ((if decide ((input e).1 = d) then engine_calls (outcome e) else 0)
     + engine_calls_on d log)%nat.
Proof.
  unfold engine_calls_on. rewrite filter_cons.
  by destruct (decide ((input e).1 = d)).
Qed.

Lemma run_days_cons (menu_info : Catalog) (d : date) (rnd : Draws)
    (calls : list (date * Draws)) (g : Globals) :
  run_days menu_info ((d, rnd) :: calls) g
  = mkEntry (d, rnd) g (generate_daily_menu_if_needed d rnd menu_info g)
    :: run_days menu_info calls
         (final (generate_daily_menu_if_needed d rnd menu_info g)).
Proof. reflexivity. Qed.

Lemma run_days_dates (menu_info : Catalog) (calls : list (date * Draws))
    (g : Globals) (e : Entry (date * Draws) Selection) :
  e ∈ run_days menu_info calls g -> (input e).1 ∈ calls.*1.
Proof.
  revert g. induction calls as [|[d r] calls IH]; intros g He;
    [by apply elem_of_nil in He|].
  rewrite run_days_cons in He. apply elem_of_cons in He as [->|He].
  - by left.
  - right. by eapply IH.
Qed.

(** A run that starts with the cache holding [s0] for [d0], on dates from
    [d0] on that never decrease, all calls returning. *)
Lemma warm_run (menu_info : Catalog) (calls : list (date * Draws)) :
  ∀ (g : Globals) (d0 : date) (s0 : Selection),
    cached_for d0 g = Some s0 ->
    Forall (fun d => d0 ≤ d) calls.*1 ->
    StronglySorted Z.le calls.*1 ->
    Forall (fun e => returned (outcome e) = true) (run_days menu_info calls g) ->
    (∀ d, engine_calls_on d (run_days menu_info calls g)
          = if decide (d ∈ calls.*1 ∧ d ≠ d0) then 1%nat else 0%nat)
    ∧ (∀ e, e ∈ run_days menu_info calls g ->
            (input e).1 = d0 -> result (outcome e) = inr s0)
    ∧ (∀ e1 e2, e1 ∈ run_days menu_info calls g ->
                e2 ∈ run_days menu_info calls g ->
                (input e1).1 = (input e2).1 ->
                result (outcome e1) = result (outcome e2)).
Proof.
  induction calls as [|[d1 r1] calls IH]; intros g d0 s0 Hwarm Hge Hsorted Hret.
  { split; [|split].
    - intros d. cbn. rewrite decide_False; [done|]. intros [H _]. by apply elem_of_nil in H.
    - intros e H. by apply elem_of_nil in H.
    - intros e1 e2 H. by apply elem_of_nil in H. }
  rewrite run_days_cons in *. cbn [fmap list_fmap fst] in *.
  apply Forall_cons in Hge as [Hd1 Hge].
  apply StronglySorted_inv in Hsorted as [Hsorted Hd1le].
  apply Forall_cons in Hret as [Hr1 Hret]. cbn [outcome] in Hr1.
  destruct (decide (d1 = d0)) as [->|Hne].
  - (* served from the cache *)
    rewrite (generate_hit d0 r1 menu_info g s0 Hwarm) in *. cbn [final] in *.
    destruct (IH g d0 s0 Hwarm Hge Hsorted Hret) as (IHn & IHs & IHe).
    split; [|split].
    + intros d. rewrite engine_calls_on_cons, IHn. cbn [input outcome engine_calls fst].
      destruct (decide (d0 = d)) as [<-|Hd].
      * rewrite !decide_False by tauto. done.
      * cbn. apply decide_ext. rewrite elem_of_cons. intuition congruence.
    + intros e He Hd. apply elem_of_cons in He as [->|He]; [done|by apply IHs].
    + intros e1 e2 H1 H2 Hd.
      apply elem_of_cons in H1 as [->|H1]; apply elem_of_cons in H2 as [->|H2].
      * done.
      * cbn [input outcome result fst] in *. symmetry. by apply IHs.
      * cbn [input outcome result fst] in *. by apply IHs.
      * by apply IHe.
  - (* a new date: the engine runs and the cache is replaced *)
    pose proof (cached_for_other d0 d1 g s0 Hwarm Hne) as Hmiss.
    pose proof (generate_counter d1 r1 menu_info g) as Hg.
    rewrite Hmiss in Hg. destruct Hg as (Hn1 & _ & _).
    set (o1 := generate_daily_menu_if_needed d1 r1 menu_info g) in *.
    unfold returned in Hr1. destruct (result o1) as [?|s1] eqn:Hres1; [done|].
    assert (Hwarm1 : cached_for d1 (final o1) = Some s1).
    { unfold o1. rewrite (generate_returned_caches d1 d1 r1 menu_info g s1 Hres1).
      by rewrite decide_True. }
    destruct (IH (final o1) d1 s1 Hwarm1 Hd1le Hsorted Hret) as (IHn & IHs & IHe).
    split; [|split].
    + intros d. rewrite engine_calls_on_cons, IHn. cbn [input outcome fst]. rewrite Hn1.
      destruct (decide (d1 = d)) as [<-|Hd].
      * rewrite decide_False by tauto.
        rewrite decide_True; [done|]. split; [by left|done].
      * cbn. apply decide_ext. rewrite elem_of_cons. split.
        -- intros [Hin _]. split; [by right|].
           rewrite Forall_forall in Hd1le. specialize (Hd1le d Hin). lia.
        -- intros [[?|Hin] _]; [done|]. done.
    + intros e He Hd. apply elem_of_cons in He as [->|He]; [done|].
      exfalso. pose proof (run_days_dates _ _ _ _ He) as Hin.
      rewrite Forall_forall in Hd1le. specialize (Hd1le _ Hin). lia.
    + intros e1 e2 H1 H2 Hd.
      apply elem_of_cons in H1 as [->|H1]; apply elem_of_cons in H2 as [->|H2].
      * done.
      * cbn [input outcome fst] in *. rewrite Hres1. symmetry. by apply IHs.
      * cbn [input outcome fst] in *. rewrite Hres1. by apply IHs.
      * by apply IHe.
Qed.

(** A run of the cache on dates that never decrease, all calls
    returning, started from any globals. *)
Lemma returning_run_once_per_date
    (menu_info : Catalog) (calls : list (date * Draws)) (g : Globals) :
  Sorted Z.le calls.*1 ->
  Forall (fun e => returned (outcome e) = true) (run_days menu_info calls g) ->
  (∀ d, engine_calls_on d (run_days menu_info calls g)
        = if decide (d ∈ calls.*1 ∧ ¬ served_at_start d calls g)
          then 1%nat else 0%nat)
  ∧ (∀ e1 e2, e1 ∈ run_days menu_info calls g ->
              e2 ∈ run_days menu_info calls g ->
              (input e1).1 = (input e2).1 ->
              result (outcome e1) = result (outcome e2))
  ∧ (∀ e, e ∈ run_days menu_info calls g ->
          engine_calls (outcome e) = 0%nat -> final (outcome e) = before e).
Proof.
  intros Hsorted Hret.
  apply Sorted_StronglySorted in Hsorted; [|intros x y z; apply Z.le_trans].
  split; [|split].
  3: {
    clear. revert g. induction calls as [|[d r] calls IH]; intros g e He;
      [by apply elem_of_nil in He|].
    rewrite run_days_cons in He. apply elem_of_cons in He as [->|He]; [|by eapply IH].
    cbn [outcome before]. pose proof (generate_counter d r menu_info g) as H.
    destruct (cached_for d g); [by rewrite H | lia]. }
  all: destruct calls as [|[d1 r1] calls].
  - intros d. cbn. rewrite decide_False; [done|]. intros [H _]. by apply elem_of_nil in H.
  - rewrite run_days_cons in *. cbn [fmap list_fmap fst] in *.
    apply StronglySorted_inv in Hsorted as [Hsorted Hd1le].
    apply Forall_cons in Hret as [Hr1 Hret]. cbn [outcome] in Hr1.
    intros d. rewrite engine_calls_on_cons. cbn [input outcome fst].
    unfold served_at_start. cbn [fmap list_fmap fst head].
    destruct (cached_for d1 g) as [s0|] eqn:Hc.
    + rewrite (generate_hit d1 r1 menu_info g s0 Hc) in *. cbn [final engine_calls] in *.
      destruct (warm_run menu_info calls g d1 s0 Hc Hd1le Hsorted Hret) as (Hn & _ & _).
      rewrite Hn. destruct (decide (d1 = d)) as [<-|Hd].
      * rewrite !decide_False; [done| |tauto].
        intros [_ Hns]. apply Hns. by rewrite Hc.
      * cbn. apply decide_ext. rewrite elem_of_cons.
        split; [intros [? ?]|intros [[?|?] ?]]; try done.
        split; [by right|]. intros [[= ?] _]. done.
    + pose proof (generate_counter d1 r1 menu_info g) as Hg.
      rewrite Hc in Hg. destruct Hg as (Hn1 & _ & _).
      set (o1 := generate_daily_menu_if_needed d1 r1 menu_info g) in *.
      unfold returned in Hr1. destruct (result o1) as [?|s1] eqn:Hres1; [done|].
      assert (Hwarm1 : cached_for d1 (final o1) = Some s1).
      { unfold o1. rewrite (generate_returned_caches d1 d1 r1 menu_info g s1 Hres1).
        by rewrite decide_True. }
      destruct (warm_run menu_info calls (final o1) d1 s1 Hwarm1 Hd1le Hsorted Hret)
        as (Hn & _ & _).
      rewrite Hn, Hn1. destruct (decide (d1 = d)) as [<-|Hd].
      * rewrite decide_False by tauto.
        rewrite decide_True; [done|]. split; [by left|].
        intros [_ Hs]. rewrite Hc in Hs. by destruct Hs.
      * cbn. apply decide_ext. rewrite elem_of_cons. split.
        -- intros [Hin _]. split; [by right|]. intros [[= ?] _]. done.
        -- intros [[?|Hin] _]; [done|]. done.
  - intros e1 e2 H. by apply elem_of_nil in H.
  - rewrite run_days_cons in *. cbn [fmap list_fmap fst] in *.
    apply StronglySorted_inv in Hsorted as [Hsorted Hd1le].
    apply Forall_cons in Hret as [Hr1 Hret]. cbn [outcome] in Hr1.
    set (o1 := generate_daily_menu_if_needed d1 r1 menu_info g) in *.
    unfold returned in Hr1. destruct (result o1) as [?|s1] eqn:Hres1; [done|].
    assert (Hwarm1 : cached_for d1 (final o1) = Some s1).
    { unfold o1. rewrite (generate_returned_caches d1 d1 r1 menu_info g s1 Hres1).
      by rewrite decide_True. }
    destruct (warm_run menu_info calls (final o1) d1 s1 Hwarm1 Hd1le Hsorted Hret)
      as (_ & Hs & He).
    intros e1 e2 H1 H2 Hd.
    apply elem_of_cons in H1 as [->|H1]; apply elem_of_cons in H2 as [->|H2].
    * done.
    * cbn [input outcome fst] in *. rewrite Hres1. symmetry. by apply Hs.
    * cbn [input outcome fst] in *. rewrite Hres1. by apply Hs.
    * by apply He.
Qed.

(** A call of the cache that raises stores nothing, and the next call on
    the same date runs the engine again. *)
Lemma raising_call_stores_nothing
    (menu_info : Catalog) (today : date) (rnd rnd' : Draws) (g : Globals)
    (e : exn) :
  result (generate_daily_menu_if_needed today rnd menu_info g) = inl e ->
  daily_menu (final (generate_daily_menu_if_needed today rnd menu_info g))
  = daily_menu g
  ∧ last_generated_date
      (final (generate_daily_menu_if_needed today rnd menu_info g))
    = last_generated_date g
  ∧ engine_calls
      (generate_daily_menu_if_needed today rnd' menu_info
         (final (generate_daily_menu_if_needed today rnd menu_info g)))
    = 1%nat.
Proof.
  intros Hraise.
  destruct (cached_for today g) as [s|] eqn:Hc.
  { by rewrite (generate_hit _ _ _ _ _ Hc) in Hraise. }
  rewrite generate_miss in Hraise |- * by done.
  destruct (engine_outcome rnd menu_info g) as [_ Ho]. unfold returned in Ho.
  destruct (result (create_daily_menu rnd menu_info g)) as [x|s];
    cbn [result] in Hraise; [|done].
  destruct Ho as [[Hf _]|[_ [_ ?]]]; [|done].
  cbn [final]. rewrite Hf. do 2 (split; [done|]).
  pose proof (generate_counter today rnd' menu_info
                (set_menu_counter (menu_counter g + 1) g)) as Hnext.
  rewrite cached_for_set_menu_counter, Hc in Hnext. by destruct Hnext.
Qed.

(** C5, as the code has it.  In a run of the cache on dates that never
    decrease, all calls returning, started from any globals: calls on the
    same date return the identical selection; a call that does not run the
    engine leaves every global as it was; and the engine runs exactly once
    per date of the run, except for the first date when the cache already
    held a selection for it at the start, for which it does not run at
    all.  For two successive calls on [today] this gives one engine run in
    total from a cache that held nothing for [today], and none otherwise.
    And from any globals, a call that raises leaves [daily_menu] and
    [last_generated_date] as they were, so that the next call on the same
    date runs the engine again. *)
Theorem engine_runs_once_per_date
    (menu_info : Catalog) (calls : list (date * Draws)) (g : Globals) :
  Sorted Z.le calls.*1 ->
  Forall (fun e => returned (outcome e) = true) (run_days menu_info calls g) ->
  (∀ d, engine_calls_on d (run_days menu_info calls g)
        = if decide (d ∈ calls.*1 ∧ ¬ served_at_start d calls g)
          then 1%nat else 0%nat)
  ∧ (∀ e1 e2, e1 ∈ run_days menu_info calls g ->
              e2 ∈ run_days menu_info calls g ->
              (input e1).1 = (input e2).1 ->
              result (outcome e1) = result (outcome e2))
  ∧ (∀ e, e ∈ run_days menu_info calls g ->
          engine_calls (outcome e) = 0%nat -> final (outcome e) = before e)
  ∧ (∀ (today : date) (rnd rnd' : Draws) (g0 : Globals) (e : exn),
       result (generate_daily_menu_if_needed today rnd menu_info g0) = inl e ->
       daily_menu (final (generate_daily_menu_if_needed today rnd menu_info g0))
       = daily_menu g0
       ∧ last_generated_date
           (final (generate_daily_menu_if_needed today rnd menu_info g0))
         = last_generated_date g0
       ∧ engine_calls
           (generate_daily_menu_if_needed today rnd' menu_info
              (final (generate_daily_menu_if_needed today rnd menu_info g0)))
         = 1%nat).
Proof.
  intros Hsorted Hret.
  destruct (returning_run_once_per_date menu_info calls g Hsorted Hret)
    as (Honce & Hsame & Hhit).
  split; [exact Honce|]. split; [exact Hsame|]. split; [exact Hhit|].
  intros today rnd rnd' g0 e Hraise.
  by apply raising_call_stores_nothing with e.
Qed.

Lemma engine_runs_once_per_date_witness :
  (∀ d, engine_calls_on d
          (run_days sample_catalog
             [(100, first_draws); (100, second_draws); (101, first_draws)]
             (initial sample_catalog))
        = if decide (d ∈ [(100, first_draws); (100, second_draws);
                          (101, first_draws)].*1
                     ∧ ¬ served_at_start d
                           [(100, first_draws); (100, second_draws);
                            (101, first_draws)]
                           (initial sample_catalog))
          then 1%nat else 0%nat)
  ∧ (∀ e1 e2,
       e1 ∈ run_days sample_catalog
              [(100, first_draws); (100, second_draws); (101, first_draws)]
              (initial sample_catalog) ->
       e2 ∈ run_days sample_catalog
              [(100, first_draws); (100, second_draws); (101, first_draws)]
              (initial sample_catalog) ->
       (input e1).1 = (input e2).1 ->
       result (outcome e1) = result (outcome e2))
  ∧ (∀ e,
       e ∈ run_days sample_catalog
             [(100, first_draws); (100, second_draws); (101, first_draws)]
             (initial sample_catalog) ->
       engine_calls (outcome e) = 0%nat -> final (outcome e) = before e)
  ∧ (∀ (today : date) (rnd rnd' : Draws) (g0 : Globals) (e : exn),
       result (generate_daily_menu_if_needed today rnd sample_catalog g0) = inl e ->
       daily_menu (final (generate_daily_menu_if_needed today rnd sample_catalog g0))
       = daily_menu g0
       ∧ last_generated_date
           (final (generate_daily_menu_if_needed today rnd sample_catalog g0))
         = last_generated_date g0
       ∧ engine_calls
           (generate_daily_menu_if_needed today rnd' sample_catalog
              (final (generate_daily_menu_if_needed today rnd sample_catalog g0)))
         = 1%nat).
Proof.
  apply (engine_runs_once_per_date sample_catalog
           [(100, first_draws); (100, second_draws); (101, first_draws)]
           (initial sample_catalog)).
  - cbn [fmap list_fmap fst]. repeat constructor; lia.
  - cbn [run_days run_calls]. repeat (constructor; [vm_compute; reflexivity|]). constructor.
Defined.

(** C5 as stated fails in two ways.  From globals whose cache already holds
    a selection for date 100, two calls on date 100 return that selection
    and the engine does not run at all.  With a catalog that has Borscht
    and no Sour Cream, from counter 3 and an empty cache, the first call on
    date 100 raises and stores nothing, the second call on the same date
    runs the engine again and returns: nothing is returned twice, and the
    engine has run twice. *)
Lemma same_date_calls_not_one_engine_run :
  (result (generate_daily_menu_if_needed 100 first_draws sample_catalog warm_globals)
   = inr [(MEAT_LABEL, chicken); (SALAD_LABEL, coleslaw)]
   ∧ result
       (generate_daily_menu_if_needed 100 second_draws sample_catalog
          (final (generate_daily_menu_if_needed 100 first_draws sample_catalog
                    warm_globals)))
     = inr [(MEAT_LABEL, chicken); (SALAD_LABEL, coleslaw)]
   ∧ (engine_calls
        (generate_daily_menu_if_needed 100 first_draws sample_catalog warm_globals)
      + engine_calls
          (generate_daily_menu_if_needed 100 second_draws sample_catalog
             (final (generate_daily_menu_if_needed 100 first_draws sample_catalog
                       warm_globals))))%nat = 0%nat)
  ∧
  (result (generate_daily_menu_if_needed 100 second_draws garlic_only_catalog
             (with_counter 3 garlic_only_catalog))
   = inl (ValueError SOUR_CREAM_NOT_FOUND)
   ∧ result
       (generate_daily_menu_if_needed 100 second_draws garlic_only_catalog
          (final (generate_daily_menu_if_needed 100 second_draws
                    garlic_only_catalog
                    (with_counter 3 garlic_only_catalog))))
     = inr [(MEAT_LABEL, beef); (SALAD_LABEL, coleslaw)]
   ∧ (engine_calls
        (generate_daily_menu_if_needed 100 second_draws garlic_only_catalog
           (with_counter 3 garlic_only_catalog))
      + engine_calls
          (generate_daily_menu_if_needed 100 second_draws garlic_only_catalog
             (final (generate_daily_menu_if_needed 100 second_draws
                       garlic_only_catalog
                       (with_counter 3 garlic_only_catalog)))))%nat = 2%nat).
Proof. repeat split; vm_compute; reflexivity. Qed.

(** ** Every 21st run *)

Lemma run_calls_chain {I A : Type} (f : I -> M A) (inputs : list I) :
  ∀ (g : Globals) (i : nat) (e e' : Entry I A),
    run_calls f inputs g !! i = Some e ->
    run_calls f inputs g !! S i = Some e' ->
    before e' = final (outcome e).
Proof.
  induction inputs as [|x inputs IH]; intros g i e e' He He'; [done|].
  cbn [run_calls] in *. destruct i as [|i].
  - cbn in He. injection He as <-. cbn in He'. cbn [outcome final].
    destruct inputs as [|y inputs]; [done|].
    cbn [run_calls] in He'. cbn in He'. by injection He' as <-.
  - cbn in He, He'. by eapply IH.
Qed.

Lemma globals_after_cons {I A : Type} (f : I -> M A) (x : I) (inputs : list I)
    (g : Globals) :
  globals_after g (run_calls f (x :: inputs) g)
  = globals_after (final (f x g)) (run_calls f inputs (final (f x g))).
Proof.
  unfold globals_after.
  destruct inputs as [|y inputs]; [reflexivity|].
  change (run_calls f (x :: y :: inputs) g)
    with (mkEntry x g (f x g) :: run_calls f (y :: inputs) (final (f x g))).
  change (run_calls f (y :: inputs) (final (f x g)))
    with (mkEntry y (final (f x g)) (f y (final (f x g)))
          :: run_calls f inputs (final (f y (final (f x g))))).
  rewrite last_cons_cons.
  destruct (last _) as [e|] eqn:Hlast; [reflexivity|].
  by apply last_None in Hlast.
Qed.

(** Started below 21, a run of returning engine calls leaves the counter
    at the number of calls made, counted modulo 21: from the initial 0
    the reset falls on every 21st call. *)
Lemma counter_after_returning_runs (inputs : list (Draws * Catalog)) :
  ∀ g : Globals,
    0 ≤ menu_counter g < 21 ->
    Forall (fun e => returned (outcome e) = true)
      (run_calls (fun i => create_daily_menu i.1 i.2) inputs g) ->
    menu_counter
      (globals_after g (run_calls (fun i => create_daily_menu i.1 i.2) inputs g))
    = (menu_counter g + Z.of_nat (length inputs)) `mod` 21.
Proof.
  induction inputs as [|[rnd menu_info] inputs IH]; intros g Hc Hret.
  { cbn [length globals_after run_calls last]. change (Z.of_nat 0) with 0.
    rewrite Z.add_0_r. symmetry. by apply Z.mod_small. }
  rewrite globals_after_cons. cbn [run_calls] in Hret.
  apply Forall_cons in Hret as [Hr Hret]. cbn [outcome fst snd] in *.
  destruct (engine_outcome rnd menu_info g) as [_ [[Hf [H21|Hw]]|[Hf [H21 _]]]];
    [| by rewrite Hw in Hr |].
  - assert (Hlt : menu_counter g + 1 < 21).
    { destruct (decide (menu_counter g + 1 = 21)) as [Heq|]; [|lia].
      rewrite Heq in H21. done. }
    rewrite IH; [|rewrite Hf; cbn [menu_counter set_menu_counter]; lia|done].
    rewrite Hf. cbn [menu_counter set_menu_counter length]. f_equal. lia.
  - assert (Heq : menu_counter g + 1 = 21).
    { apply Z.mod_divide in H21 as [k Hk]; lia. }
    rewrite IH; [|rewrite Hf; cbn [menu_counter set_menu_counter]; lia|done].
    rewrite Hf. cbn [menu_counter set_menu_counter length].
    replace (menu_counter g + Z.of_nat (S (length inputs)))
      with (0 + Z.of_nat (length inputs) + 1 * 21) by lia.
    by rewrite Z.mod_add.
Qed.

(** * Further properties of the code *)

(** ** The engine, branch by branch *)

Lemma choice_pick {A : Type} (r : nat) (seq : list A) (g : Globals) :
  choice r seq g
  = match pick r seq with
    | Some x => mkOutcome (inr x) g 0%nat
    | None => mkOutcome (inl IndexError) g 0%nat
    end.
Proof.
  unfold choice, pick. destruct seq as [|a seq]; [reflexivity|].
  by destruct (_ !! _).
Qed.

Lemma pick_elem {A : Type} (r : nat) (seq : list A) (x : A) :
  pick r seq = Some x -> x ∈ seq.
Proof.
  unfold pick. destruct seq as [|a seq]; [done|].
  intros H. by eapply list_elem_of_lookup_2.
Qed.

Lemma pick_None {A : Type} (r : nat) (seq : list A) :
  pick r seq = None <-> seq = [].
Proof.
  split; [|by intros ->].
  unfold pick. destruct seq as [|a seq]; [done|]. intros H.
  apply lookup_ge_None in H.
  pose proof (Nat.mod_upper_bound r (length (a :: seq))) as Hlt.
  cbn [length] in *. lia.
Qed.

(** The whole of [create_daily_menu] as one case analysis on the
    incremented counter, the catalog and the generator's answers. *)
Lemma engine_cases (rnd : Draws) (menu_info : Catalog) (g : Globals) :
  create_daily_menu rnd menu_info g =
    let c := menu_counter g + 1 in
    let raised e := mkOutcome (inl e) (set_menu_counter c g) 1%nat in
    let returns s := mkOutcome (inr s) (set_menu_counter c g) 1%nat in
    if decide (c `mod` 21 = 0) then
      match menu_info !! "appetizers" with
      | None => raised (KeyError "appetizers")
      | Some appetizers =>
          match pick (rnd 0%nat) appetizers with
          | None => raised IndexError
          | Some a =>
              mkOutcome (inr [(CHEAT_LABEL, a)]) (set_menu_counter 0 g) 1%nat
          end
      end
    else if decide (c `mod` 4 ≠ 0) then
      match menu_info !! "proteins" with
      | None => raised (KeyError "proteins")
      | Some proteins =>
          match pick (rnd 0%nat) proteins with
          | None => raised IndexError
          | Some meat =>
              match menu_info !! "fiber" with
              | None => raised (KeyError "fiber")
              | Some fiber =>
                  match pick (rnd 1%nat) fiber with
                  | None => raised IndexError
                  | Some salad =>
                      returns [(MEAT_LABEL, meat); (SALAD_LABEL, salad)]
                  end
              end
          end
      end
    else
      match menu_info !! "carbohydrates" with
      | None => raised (KeyError "carbohydrates")
      | Some carbohydrates =>
          match pick (rnd 0%nat) carbohydrates with
          | None => raised IndexError
          | Some garnish =>
              match menu_info !! "sauces" with
              | None => raised (KeyError "sauces")
              | Some sauces =>
                  if decide (name garnish = BORSCHT) then
                    match find_sour_cream sauces with
                    | None => raised (ValueError SOUR_CREAM_NOT_FOUND)
                    | Some s =>
                        returns [(GARNISH_LABEL, garnish); (SAUCE_LABEL, s)]
                    end
                  else
                    match pick (rnd 1%nat) sauces with
                    | None => raised IndexError
                    | Some s =>
                        returns [(GARNISH_LABEL, garnish); (SAUCE_LABEL, s)]
                    end
              end
          end
      end.
Proof.
  unfold create_daily_menu. run.
  repeat match goal with
    | |- context [choice ?r ?l ?g0] => rewrite (choice_pick r l g0)
    | |- context [decide ?P] => destruct (decide P)
    | |- context [@lookup string (list Item) _ _ ?k ?m] =>
        destruct (@lookup string (list Item) _ _ k m); run
    | |- context [pick ?r ?l] => destruct (pick r l); run
    | |- context [find_sour_cream ?l] => destruct (find_sour_cream l); run
    end; reflexivity.
Qed.

Ltac split_engine :=
  repeat match goal with
    | |- context [decide ?P] => destruct (decide P)
    | |- context [@lookup string (list Item) _ _ ?k ?m] =>
        let E := fresh "Hlook" in
        destruct (@lookup string (list Item) _ _ k m) eqn:E
    | |- context [pick ?r ?l] =>
        let E := fresh "Hpick" in destruct (pick r l) eqn:E
    | |- context [find_sour_cream ?l] =>
        let E := fresh "Hfind" in destruct (find_sour_cream l) eqn:E
    end.

(** X1.  A selection the engine returns carries the labels of the branch
    taken at the incremented counter, one pair for the cheat meal and two
    otherwise, and its items are taken, position by position, from the
    catalog lists of the categories that branch reads. *)
Theorem engine_selection_from_catalog
    (rnd : Draws) (menu_info : Catalog) (g : Globals) (selection : Selection) :
  result (create_daily_menu rnd menu_info g) = inr selection ->
  selection.*1 = labels_at (menu_counter g + 1)
  ∧ Forall2 (fun p category =>
               ∃ items, menu_info !! category = Some items ∧ p.2 ∈ items)
      selection (active_categories (menu_counter g + 1)).
Proof.
  rewrite engine_cases. cbv zeta. unfold labels_at, active_categories.
  split_engine; cbn [result]; intros H; try discriminate;
    injection H as <-; (split; [reflexivity|]);
    repeat match goal with |- Forall2 _ _ _ => constructor end;
    cbn [snd]; (eexists; split; [eassumption|]);
    try (by eapply pick_elem).
  by apply find_sour_cream_Some in Hfind as [? _].
Qed.

Lemma engine_selection_from_catalog_witness :
  [(GARNISH_LABEL, borscht); (SAUCE_LABEL, sour_cream)].*1 = labels_at (3 + 1)
  ∧ Forall2 (fun p category =>
               ∃ items, sample_catalog !! category = Some items ∧ p.2 ∈ items)
      [(GARNISH_LABEL, borscht); (SAUCE_LABEL, sour_cream)]
      (active_categories (3 + 1)).
Proof.
  apply (engine_selection_from_catalog second_draws sample_catalog
           (with_counter 3 sample_catalog)).
  vm_compute. reflexivity.
Defined.

Lemma well_formed_category (menu_info : Catalog) (category : string) :
  well_formed menu_info = true ->
  category ∈ CATEGORIES ->
  ∃ a l, menu_info !! category = Some (a :: l).
Proof.
  unfold well_formed. intros H Hin.
  apply andb_prop in H as [H _].
  rewrite forallb_forall in H. apply list_elem_of_In in Hin.
  specialize (H _ Hin). unfold nonempty_category in H.
  destruct (menu_info !! category) as [[|a l]|]; try discriminate. eauto.
Qed.

Lemma has_name_elem (n : string) (items : list Item) (i : Item) :
  i ∈ items -> name i = n -> has_name n items = true.
Proof.
  intros Hin Hn. unfold has_name. apply existsb_exists.
  exists i. split; [by apply list_elem_of_In | by apply bool_decide_eq_true].
Qed.

Lemma has_name_find (sauces : list Item) :
  has_name SOUR_CREAM sauces = true -> is_Some (find_sour_cream sauces).
Proof.
  unfold has_name. intros H. apply existsb_exists in H as (s & Hin & Hn).
  destruct (find_sour_cream sauces) as [s'|] eqn:Hf; [eauto|].
  pose proof (List.find_none _ _ Hf s Hin) as Hb. cbv beta in Hb. congruence.
Qed.

Ltac in_categories :=
  unfold CATEGORIES; repeat first [left; reflexivity | right].

(** On a well-formed catalog the engine returns at every counter and for
    every answer of the generator. *)
Lemma engine_returns_if_well_formed
    (rnd : Draws) (menu_info : Catalog) (g : Globals) :
  well_formed menu_info = true ->
  returned (create_daily_menu rnd menu_info g) = true.
Proof.
  intros Hwf.
  assert (Hcat : ∀ k, k ∈ CATEGORIES -> ∃ a l, menu_info !! k = Some (a :: l))
    by (intros; by apply well_formed_category).
  destruct (Hcat "appetizers") as (? & ? & Ha); [in_categories|].
  destruct (Hcat "proteins") as (? & ? & Hp); [in_categories|].
  destruct (Hcat "fiber") as (? & ? & Hf); [in_categories|].
  destruct (Hcat "carbohydrates") as (? & ? & Hc); [in_categories|].
  destruct (Hcat "sauces") as (? & ? & Hs); [in_categories|].
  unfold well_formed in Hwf. apply andb_prop in Hwf as [_ Hpair].
  rewrite Hc, Hs in Hpair. cbn [default from_option id] in Hpair.
  rewrite engine_cases. cbv zeta. rewrite Ha, Hp, Hf, Hc, Hs.
  unfold returned.
  split_engine; cbn [result]; try reflexivity;
    try (match goal with H : pick _ _ = None |- _ =>
           by apply pick_None in H end).
  exfalso.
  apply orb_prop in Hpair as [Hb|Hsc].
  - apply negb_true_iff in Hb.
    erewrite has_name_elem in Hb; [done| |done]. by eapply pick_elem.
  - apply has_name_find in Hsc as [? Hsc]. congruence.
Qed.

(** X3.  When a category the branch reads is missing from the catalog, and
    the other categories of the branch are there and non-empty, the call
    raises [KeyError] with the name of the missing category; the counter
    stays incremented, also in the cheat-meal branch. *)
Theorem missing_category_raises_key_error
    (rnd : Draws) (menu_info : Catalog) (g : Globals) (category : string) :
  category ∈ active_categories (menu_counter g + 1) ->
  menu_info !! category = None ->
  (∀ other, other ∈ active_categories (menu_counter g + 1) ->
            other ≠ category -> nonempty_category menu_info other = true) ->
  create_daily_menu rnd menu_info g
  = mkOutcome (inl (KeyError category))
      (set_menu_counter (menu_counter g + 1) g) 1%nat.
Proof.
  unfold active_categories, nonempty_category. intros Hin Hnone Hothers.
  rewrite engine_cases. cbv zeta.
  destruct (decide ((menu_counter g + 1) `mod` 21 = 0)).
  { apply list_elem_of_singleton in Hin as ->. by rewrite Hnone. }
  destruct (decide ((menu_counter g + 1) `mod` 4 ≠ 0)).
  - apply elem_of_cons in Hin as [->|Hin]; [by rewrite Hnone|].
    apply list_elem_of_singleton in Hin as ->.
    specialize (Hothers "proteins" ltac:(left) ltac:(done)).
    destruct (menu_info !! "proteins") as [[|a l]|] eqn:Hp; try done.
    destruct (pick (rnd 0%nat) (a :: l)) eqn:Hpick;
      [|by apply pick_None in Hpick].
    by rewrite Hnone.
  - apply elem_of_cons in Hin as [->|Hin]; [by rewrite Hnone|].
    apply list_elem_of_singleton in Hin as ->.
    specialize (Hothers "carbohydrates" ltac:(left) ltac:(done)).
    destruct (menu_info !! "carbohydrates") as [[|a l]|] eqn:Hp; try done.
    destruct (pick (rnd 0%nat) (a :: l)) eqn:Hpick;
      [|by apply pick_None in Hpick].
    by rewrite Hnone.
Qed.

Lemma missing_category_raises_key_error_witness :
  create_daily_menu first_draws no_sour_cream_catalog
    (with_counter 20 no_sour_cream_catalog)
  = mkOutcome (inl (KeyError "appetizers"))
      (set_menu_counter (menu_counter (with_counter 20 no_sour_cream_catalog) + 1)
         (with_counter 20 no_sour_cream_catalog)) 1%nat.
Proof.
  apply (missing_category_raises_key_error first_draws no_sour_cream_catalog
           (with_counter 20 no_sour_cream_catalog) "appetizers").
  - vm_compute. left.
  - reflexivity.
  - intros other Hin Hne. vm_compute in Hin.
    apply list_elem_of_singleton in Hin. congruence.
Defined.

(** The engine leaves the two cache variables alone. *)
Lemma engine_assigns_cache_free
    (rnd : Draws) (menu_info : Catalog) (g : Globals) :
  daily_menu (final (create_daily_menu rnd menu_info g)) = daily_menu g
  ∧ last_generated_date (final (create_daily_menu rnd menu_info g))
    = last_generated_date g.
Proof.
  by destruct (engine_outcome rnd menu_info g) as [_ [[-> _]|[-> _]]].
Qed.

(** ** Runs on a well-formed catalog *)

Lemma perform_returns_if_well_formed (call : Call) (g : Globals) :
  well_formed (call_catalog call) = true ->
  returned (perform call g) = true.
Proof.
  destruct call as [rnd menu_info|today rnd menu_info];
    cbn [perform call_catalog]; intros Hwf.
  - by apply engine_returns_if_well_formed.
  - pose proof (generate_counter today rnd menu_info g) as H.
    destruct (cached_for today g) as [s|].
    + by rewrite H.
    + destruct H as (_ & Hres & _). unfold returned. rewrite Hres.
      by apply engine_returns_if_well_formed.
Qed.

(** X2.  When every call is made with a catalog that has all five
    categories non-empty, and Sour Cream among the sauces if Borscht is
    among the carbohydrates, no call of a run raises, whatever the
    counter, the dates and the answers of the generator. *)
Theorem well_formed_runs_never_raise (calls : list Call) (g : Globals) :
  Forall (fun call => well_formed (call_catalog call) = true) calls ->
  Forall (fun e => returned (outcome e) = true) (run_calls perform calls g).
Proof.
  intros Hwf. revert g.
  induction Hwf as [|call calls Hcall _ IH]; intros g;
    cbn [run_calls]; constructor; [|apply IH].
  cbn [outcome]. by apply perform_returns_if_well_formed.
Qed.

Lemma well_formed_runs_never_raise_witness :
  Forall (fun e => returned (outcome e) = true)
    (run_calls perform
       [Engine first_draws sample_catalog; Cache 100 second_draws sample_catalog]
       (with_counter 19 sample_catalog)).
Proof.
  apply (well_formed_runs_never_raise
           [Engine first_draws sample_catalog; Cache 100 second_draws sample_catalog]
           (with_counter 19 sample_catalog)).
  repeat (constructor; [vm_compute; reflexivity|]). constructor.
Defined.

(** X4.  With such catalogs a counter in 0..20 stays in 0..20 along every
    run: the reset at 21 is never missed. *)
Theorem counter_stays_below_21 (calls : list Call) (g : Globals) :
  Forall (fun call => well_formed (call_catalog call) = true) calls ->
  0 ≤ menu_counter g < 21 ->
  Forall (fun e => 0 ≤ menu_counter (final (outcome e)) < 21)
    (run_calls perform calls g).
Proof.
  intros Hwf. revert g.
  induction Hwf as [|call calls Hcall _ IH]; intros g Hc;
    cbn [run_calls]; [constructor|].
  assert (Hc' : 0 ≤ menu_counter (final (perform call g)) < 21).
  { pose proof (perform_returns_if_well_formed call g Hcall) as Hr.
    destruct (perform_counter call g)
      as [[_ ->]|[(_ & -> & [H21|Hn])|(_ & -> & _)]];
      [lia| |congruence|lia].
    destruct (decide (menu_counter g + 1 = 21)) as [Heq|]; [|lia].
    rewrite Heq in H21. done. }
  constructor; [exact Hc'|by apply IH].
Qed.

Lemma counter_stays_below_21_witness :
  Forall (fun e => 0 ≤ menu_counter (final (outcome e)) < 21)
    (run_calls perform
       [Engine first_draws sample_catalog; Cache 100 second_draws sample_catalog]
       (with_counter 19 sample_catalog)).
Proof.
  apply (counter_stays_below_21
           [Engine first_draws sample_catalog; Cache 100 second_draws sample_catalog]
           (with_counter 19 sample_catalog)).
  - repeat (constructor; [vm_compute; reflexivity|]). constructor.
  - unfold with_counter. cbn [menu_counter set_menu_counter]. lia.
Defined.

(** ** The schedule of the rotation *)

Lemma engine_labels
    (rnd : Draws) (menu_info : Catalog) (g : Globals) (selection : Selection) :
  result (create_daily_menu rnd menu_info g) = inr selection ->
  selection.*1 = labels_at (menu_counter g + 1).
Proof.
  rewrite engine_cases. cbv zeta. unfold labels_at.
  split_engine; cbn [result]; intros H; try discriminate;
    by injection H as <-.
Qed.

Lemma run_calls_entry {I A : Type} (f : I -> M A) (inputs : list I) :
  ∀ (g : Globals) (e : Entry I A),
    e ∈ run_calls f inputs g -> outcome e = f (input e) (before e).
Proof.
  induction inputs as [|x inputs IH]; intros g e He;
    [by apply elem_of_nil in He|].
  cbn [run_calls] in He. apply elem_of_cons in He as [->|He]; [done|].
  by eapply IH.
Qed.

(** X5.  Started at a counter [c0] in 0..20, in a run of returning engine
    calls the call number [i] (from 0) starts at counter [(c0 + i) mod 21]
    and returns the labels of position [(c0 + i) mod 21 + 1] of the cycle:
    the schedule has period 21, with the cheat meal at position 21, garnish
    and sauce at positions 4, 8, 12, 16 and 20, and meat and salad at the
    other fifteen. *)
Theorem rotation_has_period_21 (inputs : list (Draws * Catalog)) :
  ∀ (g : Globals) (i : nat) (e : Entry (Draws * Catalog) Selection),
    0 ≤ menu_counter g < 21 ->
    Forall (fun e => returned (outcome e) = true)
      (run_calls (fun i => create_daily_menu i.1 i.2) inputs g) ->
    run_calls (fun i => create_daily_menu i.1 i.2) inputs g !! i = Some e ->
    menu_counter (before e) = (menu_counter g + Z.of_nat i) `mod` 21
    ∧ ∃ selection,
        result (outcome e) = inr selection
        ∧ selection.*1
          = labels_at ((menu_counter g + Z.of_nat i) `mod` 21 + 1).
Proof.
  induction inputs as [|[rnd menu_info] inputs IH]; intros g i e Hc Hret Hi;
    [done|].
  cbn [run_calls] in Hret, Hi. cbn [fst snd] in *.
  apply Forall_cons in Hret as [Hr Hret]. cbn [outcome] in Hr.
  destruct i as [|i].
  - cbn in Hi. injection Hi as <-. cbn [before outcome].
    change (Z.of_nat 0) with 0. rewrite Z.add_0_r, Z.mod_small by done.
    split; [done|]. unfold returned in Hr.
    destruct (result (create_daily_menu rnd menu_info g)) as [|s] eqn:Hres;
      [done|].
    exists s. split; [done|]. by apply engine_labels in Hres.
  - cbn in Hi.
    assert (Hnext : menu_counter (final (create_daily_menu rnd menu_info g))
                    = (menu_counter g + 1) `mod` 21).
    { destruct (engine_outcome rnd menu_info g)
        as [_ [[Hf [H21|Hw]]|[Hf [H21 _]]]];
        [|congruence|]; rewrite Hf; cbn [menu_counter set_menu_counter].
      - destruct (decide (menu_counter g + 1 = 21)) as [Heq|].
        + rewrite Heq in H21. done.
        + symmetry. apply Z.mod_small. lia.
      - by rewrite H21. }
    destruct (IH (final (create_daily_menu rnd menu_info g)) i e)
      as [Hb Hl]; [|done|done|].
    { rewrite Hnext. apply Z.mod_pos_bound. lia. }
    rewrite Hnext in Hb, Hl.
    replace (menu_counter g + Z.of_nat (S i))
      with (menu_counter g + 1 + Z.of_nat i) by lia.
    rewrite Zplus_mod_idemp_l in Hb, Hl. done.
Qed.

Lemma rotation_has_period_21_witness :
  menu_counter (before (mkEntry (second_draws, sample_catalog)
                          (set_menu_counter 1 (initial sample_catalog))
                          (create_daily_menu second_draws sample_catalog
                             (set_menu_counter 1 (initial sample_catalog)))))
  = (menu_counter (initial sample_catalog) + Z.of_nat 1) `mod` 21
  ∧ ∃ selection,
      result (outcome (mkEntry (second_draws, sample_catalog)
                         (set_menu_counter 1 (initial sample_catalog))
                         (create_daily_menu second_draws sample_catalog
                            (set_menu_counter 1 (initial sample_catalog)))))
      = inr selection
      ∧ selection.*1
        = labels_at ((menu_counter (initial sample_catalog) + Z.of_nat 1)
                     `mod` 21 + 1).
Proof.
  apply (rotation_has_period_21
           [(first_draws, sample_catalog); (second_draws, sample_catalog)]
           (initial sample_catalog) 1%nat).
  - cbn [menu_counter initial]. lia.
  - repeat (constructor; [vm_compute; reflexivity|]). constructor.
  - reflexivity.
Defined.

(** The positions of one cycle, written out. *)
Lemma labels_of_the_cycle :
  labels_at <$> seqZ 1 21
  = [ [MEAT_LABEL; SALAD_LABEL]; [MEAT_LABEL; SALAD_LABEL];
      [MEAT_LABEL; SALAD_LABEL]; [GARNISH_LABEL; SAUCE_LABEL];
      [MEAT_LABEL; SALAD_LABEL]; [MEAT_LABEL; SALAD_LABEL];
      [MEAT_LABEL; SALAD_LABEL]; [GARNISH_LABEL; SAUCE_LABEL];
      [MEAT_LABEL; SALAD_LABEL]; [MEAT_LABEL; SALAD_LABEL];
      [MEAT_LABEL; SALAD_LABEL]; [GARNISH_LABEL; SAUCE_LABEL];
      [MEAT_LABEL; SALAD_LABEL]; [MEAT_LABEL; SALAD_LABEL];
      [MEAT_LABEL; SALAD_LABEL]; [GARNISH_LABEL; SAUCE_LABEL];
      [MEAT_LABEL; SALAD_LABEL]; [MEAT_LABEL; SALAD_LABEL];
      [MEAT_LABEL; SALAD_LABEL]; [GARNISH_LABEL; SAUCE_LABEL];
      [CHEAT_LABEL] ].
Proof. vm_compute. reflexivity. Qed.

(** ** The cache between calls *)

(** X6.  In any run of the cache, whatever the order of the dates: after a
    call that returned, the next call runs the engine exactly when its date
    differs from the date of that call.  The cache keeps one date only, so a
    date that comes back after another one is generated anew. *)
Theorem engine_runs_when_date_changes
    (menu_info : Catalog) (calls : list (date * Draws)) (g : Globals)
    (i : nat) (e e' : Entry (date * Draws) Selection) :
  run_days menu_info calls g !! i = Some e ->
  run_days menu_info calls g !! S i = Some e' ->
  returned (outcome e) = true ->
  engine_calls (outcome e')
  = if decide ((input e').1 = (input e).1) then 0%nat else 1%nat.
Proof.
  unfold run_days. intros He He' Hr.
  pose proof (run_calls_chain _ _ _ _ _ _ He He') as Hchain.
  pose proof (run_calls_entry _ _ _ _ (list_elem_of_lookup_2 _ _ _ He)) as Ho.
  pose proof (run_calls_entry _ _ _ _ (list_elem_of_lookup_2 _ _ _ He')) as Ho'.
  cbv beta in Ho, Ho'. rewrite Ho', Hchain.
  unfold returned in Hr. destruct (result (outcome e)) as [|s] eqn:Hres; [done|].
  rewrite Ho in Hres |- *.
  pose proof (generate_returned_caches (input e).1 (input e').1 _ _ _ _ Hres)
    as Hcache.
  pose proof (generate_counter (input e').1 (input e').2 menu_info
                (final (generate_daily_menu_if_needed (input e).1 (input e).2
                          menu_info (before e)))) as Hg.
  rewrite Hcache in Hg.
  destruct (decide ((input e).1 = (input e').1)) as [Heq|Hne].
  - rewrite Hg. cbn [engine_calls]. by rewrite decide_True.
  - destruct Hg as (-> & _). by rewrite decide_False.
Qed.

Lemma engine_runs_when_date_changes_witness :
  engine_calls
    (outcome
       (mkEntry (100, first_draws)
          (final (generate_daily_menu_if_needed 101 first_draws sample_catalog
                    (final (generate_daily_menu_if_needed 100 first_draws
                              sample_catalog (initial sample_catalog)))))
          (generate_daily_menu_if_needed 100 first_draws sample_catalog
             (final (generate_daily_menu_if_needed 101 first_draws sample_catalog
                       (final (generate_daily_menu_if_needed 100 first_draws
                                 sample_catalog (initial sample_catalog))))))))
  = 1%nat.
Proof.
  exact (engine_runs_when_date_changes sample_catalog
           [(100, first_draws); (101, first_draws); (100, first_draws)]
           (initial sample_catalog) 1%nat _ _
           ltac:(reflexivity) ltac:(reflexivity) ltac:(vm_compute; reflexivity)).
Defined.

(** X7.  Along every run that starts from [cache_consistent] globals
    (both cache variables [None], as they are after import, or a date
    together with a selection of one or two pairs), the globals stay
    [cache_consistent]: the two variables are assigned together and a
    cached selection has one or two pairs, so the test
    [daily_menu is not None] never disagrees with the date test. *)
Theorem cache_variables_stay_together (calls : list Call) (g : Globals) :
  cache_consistent g ->
  Forall (fun e => cache_consistent (final (outcome e)))
    (run_calls perform calls g).
Proof.
  revert g. induction calls as [|call calls IH]; intros g Hg;
    cbn [run_calls]; [constructor|].
  assert (Hg' : cache_consistent (final (perform call g))).
  { destruct call as [rnd menu_info|today rnd menu_info]; cbn [perform].
    - destruct (engine_assigns_cache_free rnd menu_info g) as [Hd Hl].
      unfold cache_consistent. by rewrite Hd, Hl.
    - destruct (cached_for today g) as [s|] eqn:Hc.
      + by rewrite (generate_hit _ _ _ _ _ Hc).
      + rewrite generate_miss by done.
        destruct (result (create_daily_menu rnd menu_info g)) as [x|s] eqn:Hres;
          cbn [final].
        * destruct (engine_assigns_cache_free rnd menu_info g) as [Hd Hl].
          unfold cache_consistent. by rewrite Hd, Hl.
        * unfold cache_consistent.
          cbn [daily_menu last_generated_date set_daily_menu
               set_last_generated_date].
          apply engine_labels in Hres.
          apply (f_equal length) in Hres. rewrite length_fmap in Hres.
          rewrite Hres. unfold labels_at. repeat case_decide; auto. }
  constructor; [exact Hg'|by apply IH].
Qed.

Lemma cache_variables_stay_together_witness :
  Forall (fun e => cache_consistent (final (outcome e)))
    (run_calls perform
       [Cache 100 first_draws sample_catalog; Engine first_draws sample_catalog;
        Cache 101 second_draws no_sour_cream_catalog]
       (initial sample_catalog)).
Proof.
  apply (cache_variables_stay_together
           [Cache 100 first_draws sample_catalog; Engine first_draws sample_catalog;
            Cache 101 second_draws no_sour_cream_catalog]
           (initial sample_catalog)).
  exact I.
Defined.

(** X8.  When a call of the cache raises, whatever the exception, the
    cache had nothing for [today], the exception is the one the engine
    raised, the engine ran once, and the globals are the old ones with the
    counter incremented by 1: nothing is stored and the counter is not
    reset. *)
Theorem cache_call_raises_only_through_engine
    (today : date) (rnd : Draws) (menu_info : Catalog) (g : Globals) (e : exn) :
  result (generate_daily_menu_if_needed today rnd menu_info g) = inl e ->
  cached_for today g = None
  ∧ result (create_daily_menu rnd menu_info g) = inl e
  ∧ generate_daily_menu_if_needed today rnd menu_info g
    = mkOutcome (inl e) (set_menu_counter (menu_counter g + 1) g) 1%nat.
Proof.
  intros Hraise.
  destruct (cached_for today g) as [s|] eqn:Hc.
  { by rewrite (generate_hit _ _ _ _ _ Hc) in Hraise. }
  split; [done|].
  rewrite generate_miss in Hraise |- * by done.
  destruct (engine_outcome rnd menu_info g) as [_ Ho]. unfold returned in Ho.
  destruct (result (create_daily_menu rnd menu_info g)) as [x|s];
    cbn [result] in Hraise; [|done].
  injection Hraise as ->. split; [done|].
  destruct Ho as [[-> _]|[_ [_ ?]]]; done.
Qed.

Lemma cache_call_raises_only_through_engine_witness :
  cached_for 100 (with_counter 20 no_appetizer_catalog) = None
  ∧ result (create_daily_menu first_draws no_appetizer_catalog
              (with_counter 20 no_appetizer_catalog)) = inl IndexError
  ∧ generate_daily_menu_if_needed 100 first_draws no_appetizer_catalog
      (with_counter 20 no_appetizer_catalog)
    = mkOutcome (inl IndexError)
        (set_menu_counter (menu_counter (with_counter 20 no_appetizer_catalog) + 1)
           (with_counter 20 no_appetizer_catalog)) 1%nat.
Proof.
  apply (cache_call_raises_only_through_engine 100 first_draws
           no_appetizer_catalog (with_counter 20 no_appetizer_catalog) IndexError).
  vm_compute. reflexivity.
Defined.

(** ** The broadcast *)

Lemma deliver_app (fate : nat -> Fate) (rs1 rs2 : list SendPhoto) :
  ∀ box,
    deliver fate (rs1 ++ rs2) box
    = match deliver fate rs1 box with
      | (Delivered, box') => deliver fate rs2 box'
      | failed => failed
      end.
Proof.
  induction rs1 as [|r rs1 IH]; intros box; [reflexivity|].
  cbn [deliver app]. destruct (fate (attempts box)); [apply IH|done|done].
Qed.

Lemma send_menu_deliver (fate : nat -> Fate) (chat : Z) (menu : Selection) :
  ∀ box,
    send_menu fate chat menu box
    = deliver fate
        (map (fun p => mkSendPhoto chat (image p.2) (item_caption p.1 p.2)) menu)
        box.
Proof.
  induction menu as [|[label item] menu IH]; intros box; [reflexivity|].
  cbn [send_menu map deliver fst snd]. unfold send_item.
  destruct (fate (attempts box)); [apply IH|done|done].
Qed.

(** The nested loops of [broadcast_daily_menu] are one pass over
    [photos_for]. *)
Lemma send_to_all_deliver (fate : nat -> Fate) (subscribers : list Z)
    (menu : Selection) :
  ∀ box,
    send_to_all fate subscribers menu box
    = deliver fate (photos_for subscribers menu) box.
Proof.
  induction subscribers as [|chat subscribers IH]; intros box; [reflexivity|].
  cbn [send_to_all photos_for flat_map]. rewrite deliver_app, send_menu_deliver.
  destruct (deliver fate _ box) as [[| |] box']; [apply IH|done|done].
Qed.

(** A pass in which the first [k] calls deliver. *)
Lemma deliver_prefix (fate : nat -> Fate) (rs : list SendPhoto) :
  ∀ (box : Outbox) (k : nat),
    (k ≤ length rs)%nat ->
    (∀ j, (j < k)%nat -> fate (attempts box + j)%nat = Delivered) ->
    (k = length rs ->
     deliver fate rs box
     = (Delivered, mkOutbox (attempts box + k) (delivered box ++ rs)))
    ∧ ((k < length rs)%nat ->
       fate (attempts box + k)%nat ≠ Delivered ->
       deliver fate rs box
       = (fate (attempts box + k)%nat,
          mkOutbox (S (attempts box + k)) (delivered box ++ take k rs))).
Proof.
  induction rs as [|r rs IH]; intros box k Hk Hok.
  { cbn [length] in *. assert (k = 0%nat) as -> by lia.
    split; [|lia]. intros _. cbn [deliver]. rewrite Nat.add_0_r, app_nil_r.
    by destruct box. }
  cbn [length] in Hk. destruct k as [|k].
  - split; [done|]. intros _ Hfail. rewrite Nat.add_0_r in *.
    cbn [deliver take]. rewrite app_nil_r.
    by destruct (fate (attempts box)).
  - pose proof (Hok 0%nat ltac:(lia)) as H0. rewrite Nat.add_0_r in H0.
    cbn [deliver]. rewrite H0.
    destruct (IH (mkOutbox (S (attempts box)) (delivered box ++ [r])) k)
      as [IHall IHfail]; [lia| |].
    { intros j Hj. cbn [attempts].
      replace (S (attempts box) + j)%nat with (attempts box + S j)%nat by lia.
      apply Hok. lia. }
    cbn [attempts delivered] in IHall, IHfail.
    replace (S (attempts box) + k)%nat with (attempts box + S k)%nat
      in IHall, IHfail by lia.
    rewrite <- app_assoc in IHall, IHfail. cbn [app] in IHall, IHfail.
    split.
    + intros Hlen. cbn [length] in Hlen. apply IHall. lia.
    + intros Hlt Hfail. cbn [length] in Hlt. cbn [take].
      apply IHfail; [lia|done].
Qed.

Lemma length_photos_for (subscribers : list Z) (menu : Selection) :
  length (photos_for subscribers menu)
  = (length subscribers * length menu)%nat.
Proof.
  unfold photos_for. induction subscribers as [|chat subscribers IH];
    [reflexivity|].
  cbn [flat_map length]. rewrite length_app, length_map, IH. lia.
Qed.

Lemma menu_for_today_raises (today : date) (rnd : Draws) (g : Globals) (e : exn) :
  result (menu_for_today today rnd g) = inl e ->
  menu_for_today today rnd g
  = mkOutcome (inl e) (set_menu_counter (menu_counter g + 1) g) 1%nat.
Proof.
  rewrite menu_for_today_eq. intros Hraise.
  destruct (cached_for today g) as [s|] eqn:Hc.
  { by rewrite (generate_hit _ _ _ _ _ Hc) in Hraise. }
  rewrite generate_miss in Hraise |- * by done.
  destruct (engine_outcome rnd (menu_data g) g) as [_ Ho]. unfold returned in Ho.
  destruct (result (create_daily_menu rnd (menu_data g) g)) as [x|s];
    cbn [result] in Hraise; [|done].
  injection Hraise as ->. destruct Ho as [[-> _]|[_ [_ ?]]]; done.
Qed.

(** X9.  When the menu cannot be made, the broadcast sends nothing to
    anyone: it ends with the engine's exception, no [send_item] call, the
    counter incremented and the cache as it was. *)
Theorem broadcast_without_menu_sends_nothing
    (subscribers : list Z) (today : date) (rnd : Draws) (fate : nat -> Fate)
    (g : Globals) (e : exn) :
  result (menu_for_today today rnd g) = inl e ->
  broadcast_daily_menu subscribers today rnd fate g
  = mkBroadcast (MenuRaised e) (set_menu_counter (menu_counter g + 1) g)
      empty_outbox 1%nat.
Proof.
  intros Hraise. unfold broadcast_daily_menu.
  by rewrite (menu_for_today_raises _ _ _ _ Hraise).
Qed.

Lemma broadcast_without_menu_sends_nothing_witness :
  broadcast_daily_menu [11; 22] 100 second_draws always_delivered
    (with_counter 3 garlic_only_catalog)
  = mkBroadcast (MenuRaised (ValueError SOUR_CREAM_NOT_FOUND))
      (set_menu_counter (menu_counter (with_counter 3 garlic_only_catalog) + 1)
         (with_counter 3 garlic_only_catalog))
      empty_outbox 1%nat.
Proof.
  apply (broadcast_without_menu_sends_nothing [11; 22] 100 second_draws
           always_delivered (with_counter 3 garlic_only_catalog)).
  vm_compute. reflexivity.
Defined.

Lemma broadcast_delivers_everything
    (subscribers : list Z) (today : date) (rnd : Draws) (fate : nat -> Fate)
    (g : Globals) (menu : Selection) :
  result (menu_for_today today rnd g) = inr menu ->
  (∀ k, (k < length (photos_for subscribers menu))%nat -> fate k = Delivered) ->
  status (broadcast_daily_menu subscribers today rnd fate g) = Completed
  ∧ delivered (outbox (broadcast_daily_menu subscribers today rnd fate g))
    = photos_for subscribers menu
  ∧ attempts (outbox (broadcast_daily_menu subscribers today rnd fate g))
    = length (photos_for subscribers menu).
Proof.
  intros Hmenu Hok. unfold broadcast_daily_menu. rewrite Hmenu.
  rewrite send_to_all_deliver.
  destruct (deliver_prefix fate (photos_for subscribers menu) empty_outbox
              (length (photos_for subscribers menu))) as [Hall _];
    [done|done|].
  by rewrite Hall.
Qed.

(** X10.  When the menu is there and every [send_item] call goes through,
    the broadcast completes and the photos that went out are, in this
    order, those of [photos_for]: for each subscriber in the order of the
    list, one photo per pair of the selection in the order of the
    selection, captioned from that pair; their number is the number of
    subscribers times the number of pairs. *)
Theorem broadcast_delivers_to_everyone
    (subscribers : list Z) (today : date) (rnd : Draws) (fate : nat -> Fate)
    (g : Globals) (menu : Selection) :
  result (menu_for_today today rnd g) = inr menu ->
  (∀ k, (k < length subscribers * length menu)%nat -> fate k = Delivered) ->
  status (broadcast_daily_menu subscribers today rnd fate g) = Completed
  ∧ delivered (outbox (broadcast_daily_menu subscribers today rnd fate g))
    = photos_for subscribers menu
  ∧ attempts (outbox (broadcast_daily_menu subscribers today rnd fate g))
    = (length subscribers * length menu)%nat.
Proof.
  intros Hmenu Hok. unfold broadcast_daily_menu. rewrite Hmenu.
  rewrite send_to_all_deliver.
  destruct (deliver_prefix fate (photos_for subscribers menu) empty_outbox
              (length (photos_for subscribers menu))) as [Hall _]; [done| |].
  { intros j Hj. rewrite length_photos_for in Hj. by apply Hok. }
  rewrite Hall by done. cbn [status outbox delivered attempts empty_outbox app].
  by rewrite length_photos_for.
Qed.

Lemma broadcast_delivers_to_everyone_witness :
  status (broadcast_daily_menu [11; 22] 100 first_draws always_delivered
            (initial sample_catalog)) = Completed
  ∧ delivered (outbox (broadcast_daily_menu [11; 22] 100 first_draws
                         always_delivered (initial sample_catalog)))
    = photos_for [11; 22] [(MEAT_LABEL, chicken); (SALAD_LABEL, coleslaw)]
  ∧ attempts (outbox (broadcast_daily_menu [11; 22] 100 first_draws
                        always_delivered (initial sample_catalog)))
    = (length [11; 22] * length [(MEAT_LABEL, chicken); (SALAD_LABEL, coleslaw)])%nat.
Proof.
  apply (broadcast_delivers_to_everyone [11; 22] 100 first_draws always_delivered
           (initial sample_catalog)
           [(MEAT_LABEL, chicken); (SALAD_LABEL, coleslaw)]).
  - vm_compute. reflexivity.
  - intros k _. reflexivity.
Defined.

(** X11.  When the [k]-th [send_item] call is the first that raises, the
    broadcast ends there with that failure: exactly the first [k] photos
    of [photos_for] went out, [k + 1] calls were made, and the
    subscribers and items after it get nothing. *)
Theorem broadcast_stops_at_first_failure
    (subscribers : list Z) (today : date) (rnd : Draws) (fate : nat -> Fate)
    (g : Globals) (menu : Selection) (k : nat) :
  result (menu_for_today today rnd g) = inr menu ->
  (k < length subscribers * length menu)%nat ->
  (∀ j, (j < k)%nat -> fate j = Delivered) ->
  fate k ≠ Delivered ->
  status (broadcast_daily_menu subscribers today rnd fate g)
  = DeliveryRaised (fate k)
  ∧ delivered (outbox (broadcast_daily_menu subscribers today rnd fate g))
    = take k (photos_for subscribers menu)
  ∧ attempts (outbox (broadcast_daily_menu subscribers today rnd fate g))
    = S k.
Proof.
  intros Hmenu Hk Hok Hfail. unfold broadcast_daily_menu. rewrite Hmenu.
  rewrite send_to_all_deliver.
  destruct (deliver_prefix fate (photos_for subscribers menu) empty_outbox k)
    as [_ Hstop]; [rewrite length_photos_for; lia|done|].
  rewrite Hstop; [|by rewrite length_photos_for|done].
  cbn [attempts empty_outbox Nat.add delivered app].
  by destruct (fate k).
Qed.

Lemma broadcast_stops_at_first_failure_witness :
  status (broadcast_daily_menu [11; 22] 100 first_draws third_fails
            (initial sample_catalog))
  = DeliveryRaised (third_fails 2)
  ∧ delivered (outbox (broadcast_daily_menu [11; 22] 100 first_draws third_fails
                         (initial sample_catalog)))
    = take 2 (photos_for [11; 22] [(MEAT_LABEL, chicken); (SALAD_LABEL, coleslaw)])
  ∧ attempts (outbox (broadcast_daily_menu [11; 22] 100 first_draws third_fails
                        (initial sample_catalog)))
    = 3%nat.
Proof.
  apply (broadcast_stops_at_first_failure [11; 22] 100 first_draws third_fails
           (initial sample_catalog)
           [(MEAT_LABEL, chicken); (SALAD_LABEL, coleslaw)] 2).
  - vm_compute. reflexivity.
  - cbn [length]. lia.
  - intros j Hj. unfold third_fails. apply decide_False. lia.
  - vm_compute. discriminate.
Defined.

Lemma broadcast_globals
    (subscribers : list Z) (today : date) (rnd : Draws) (fate : nat -> Fate)
    (g : Globals) :
  globals (broadcast_daily_menu subscribers today rnd fate g)
  = final (menu_for_today today rnd g)
  ∧ engine_runs (broadcast_daily_menu subscribers today rnd fate g)
    = engine_calls (menu_for_today today rnd g).
Proof.
  unfold broadcast_daily_menu.
  destruct (result (menu_for_today today rnd g)); [done|].
  by destruct (send_to_all fate subscribers _ empty_outbox) as [[| |] box].
Qed.

(** X12.  Once a broadcast has made the menu of [today], however its
    deliveries ended, a further broadcast on the same date does not run
    the engine, leaves the globals as they are, and sends (when its own
    deliveries go through) the photos of the very same selection: a failed
    delivery is retried with the same dishes. *)
Theorem rebroadcast_sends_the_same_menu
    (subscribers subscribers' : list Z) (today : date) (rnd rnd' : Draws)
    (fate fate' : nat -> Fate) (g : Globals) (menu : Selection) :
  result (menu_for_today today rnd g) = inr menu ->
  (∀ k, (k < length subscribers' * length menu)%nat -> fate' k = Delivered) ->
  engine_runs
    (broadcast_daily_menu subscribers' today rnd' fate'
       (globals (broadcast_daily_menu subscribers today rnd fate g))) = 0%nat
  ∧ globals
      (broadcast_daily_menu subscribers' today rnd' fate'
         (globals (broadcast_daily_menu subscribers today rnd fate g)))
    = globals (broadcast_daily_menu subscribers today rnd fate g)
  ∧ delivered
      (outbox
         (broadcast_daily_menu subscribers' today rnd' fate'
            (globals (broadcast_daily_menu subscribers today rnd fate g))))
    = photos_for subscribers' menu.
Proof.
  intros Hmenu Hok.
  destruct (broadcast_globals subscribers today rnd fate g) as [Hg _].
  set (g1 := globals (broadcast_daily_menu subscribers today rnd fate g)) in *.
  assert (Hhit : menu_for_today today rnd' g1 = mkOutcome (inr menu) g1 0%nat).
  { rewrite menu_for_today_eq. apply generate_hit.
    rewrite Hg, menu_for_today_eq.
    rewrite menu_for_today_eq in Hmenu.
    rewrite (generate_returned_caches today today _ _ _ _ Hmenu).
    by rewrite decide_True. }
  destruct (broadcast_globals subscribers' today rnd' fate' g1) as [Hg' Hn'].
  rewrite Hhit in Hg', Hn'. cbn [final engine_calls] in Hg', Hn'.
  split; [done|]. split; [done|].
  destruct (broadcast_delivers_everything subscribers' today rnd' fate' g1 menu)
    as [_ [Hd _]]; [by rewrite Hhit| |done].
  intros k Hk. rewrite length_photos_for in Hk. by apply Hok.
Qed.

Lemma rebroadcast_sends_the_same_menu_witness :
  engine_runs
    (broadcast_daily_menu [11; 22] 100 second_draws always_delivered
       (globals (broadcast_daily_menu [11; 22] 100 first_draws third_fails
                   (initial sample_catalog)))) = 0%nat
  ∧ globals
      (broadcast_daily_menu [11; 22] 100 second_draws always_delivered
         (globals (broadcast_daily_menu [11; 22] 100 first_draws third_fails
                     (initial sample_catalog))))
    = globals (broadcast_daily_menu [11; 22] 100 first_draws third_fails
                 (initial sample_catalog))
  ∧ delivered
      (outbox
         (broadcast_daily_menu [11; 22] 100 second_draws always_delivered
            (globals (broadcast_daily_menu [11; 22] 100 first_draws third_fails
                        (initial sample_catalog)))))
    = photos_for [11; 22] [(MEAT_LABEL, chicken); (SALAD_LABEL, coleslaw)].
Proof.
  apply (rebroadcast_sends_the_same_menu [11; 22] [11; 22] 100
           first_draws second_draws third_fails always_delivered
           (initial sample_catalog)
           [(MEAT_LABEL, chicken); (SALAD_LABEL, coleslaw)]).
  - vm_compute. reflexivity.
  - intros k _. reflexivity.
Defined.

(** ** The caption *)

Lemma append_nil_l (x : string) : "" +:+ x = x.
Proof. reflexivity. Qed.

Lemma append_cons (c : Ascii.ascii) (s x : string) :
  String c s +:+ x = String c (s +:+ x).
Proof. reflexivity. Qed.

Lemma append_inv_head (s a b : string) : s +:+ a = s +:+ b -> a = b.
Proof.
  induction s as [|c s IH]; rewrite ?append_nil_l, ?append_cons; [done|].
  intros H. injection H as H. by apply IH.
Qed.

(** Two texts that agree and whose first lines are [a] and [b] have the
    same first line and the same remainder. *)
Lemma split_at_line_feed (a : string) :
  ∀ b x y : string,
    single_line a = true -> single_line b = true ->
    a +:+ LF +:+ x = b +:+ LF +:+ y ->
    a = b ∧ x = y.
Proof.
  unfold LF.
  induction a as [|c a IH]; intros [|d b] x y Ha Hb H;
    rewrite ?append_nil_l, ?append_cons, ?append_nil_l in H;
    cbn [single_line] in Ha, Hb.
  - by injection H as ->.
  - injection H as <- _. apply andb_prop in Hb as [Hb _].
    by rewrite Ascii.eqb_refl in Hb.
  - injection H as -> _. apply andb_prop in Ha as [Ha _].
    by rewrite Ascii.eqb_refl in Ha.
  - injection H as -> H.
    apply andb_prop in Ha as [_ Ha]. apply andb_prop in Hb as [_ Hb].
    destruct (IH b x y Ha Hb) as [-> ->]; [|done].
    by rewrite !append_cons, !append_nil_l.
Qed.

(** X13.  The first two lines of the caption [send_item] builds can be
    read back: for one label, two items whose names and descriptions hold
    no line feed and whose captions are equal have the same name and the
    same description. *)
Theorem caption_determines_name_and_info (label : string) (item item' : Item) :
  single_line (name item) = true -> single_line (name item') = true ->
  single_line (info item) = true -> single_line (info item') = true ->
  item_caption label item = item_caption label item' ->
  name item = name item' ∧ info item = info item'.
Proof.
  unfold item_caption. intros Hn Hn' Hi Hi' H.
  apply append_inv_head, append_inv_head in H.
  apply split_at_line_feed in H as [Hname H]; [|done|done].
  apply append_inv_head in H.
  apply split_at_line_feed in H as [Hinfo _]; [|done|done].
  done.
Qed.

Lemma caption_determines_name_and_info_witness :
  name chicken = name (mkItem "chicken" "grilled" "250" "img/other.jpg")
  ∧ info chicken = info (mkItem "chicken" "grilled" "250" "img/other.jpg").
Proof.
  apply (caption_determines_name_and_info MEAT_LABEL chicken
           (mkItem "chicken" "grilled" "250" "img/other.jpg"));
    reflexivity.
Defined.
